(** * The mock machine-manager server (mock_manager_server.py)

    A shallow embedding of the two gRPC servicers [_MachineManager] and
    [_MachineDiscovery] and of [serve], followed by the properties of the
    session lifecycle handlers and of the shutdown drain.

    Python statements are embedded in a small monad [Py R A] over the
    interpreter state: a statement either falls through to the next one,
    executes [return], or raises.  [try]/[except] and the function-call
    boundary are combinators of that monad, so every handler below reads
    like the method it embeds, statement by statement. *)

From Stdlib Require Import ZArith Ascii String.
From Stdlib Require Strings.Byte.
From stdpp Require Import base option list strings pretty gmap fin_maps.

Local Open Scope string_scope.

(** ** Exceptions and status codes *)

(** The exception classes.  [SessionIdException], [AddressException] and
    [RollbackException] are imported from [session_registry],
    [CycleException] lives in [utils]; [KeyError] is what a dict subscript
    raises on a missing key; [OtherException] stands for any other subclass
    of [Exception].  The remaining classes derive from [BaseException]
    without deriving from [Exception]: [KeyboardInterrupt], which
    [handle_sigterm] raises and [serve] catches, [SystemExit],
    [GeneratorExit], and [OtherBaseException] for any class of the kind
    that a library defines. *)
Inductive ExcClass :=
| SessionIdException
| AddressException
| RollbackException
| CycleException
| KeyError
| OtherException (name : string)
| KeyboardInterrupt
| SystemExit
| GeneratorExit
| OtherBaseException (name : string).

#[global] Instance ExcClass_eq_dec : EqDecision ExcClass.
Proof. solve_decision. Defined.

(** [issubclass(c, Exception)]. *)
Definition is_Exception (c : ExcClass) : bool :=
  match c with
  | KeyboardInterrupt | SystemExit | GeneratorExit | OtherBaseException _ => false
  | SessionIdException | AddressException | RollbackException | CycleException
  | KeyError | OtherException _ => true
  end.

(** An exception instance: its class and [str(e)]. *)
Record Exc := mkExc { exc_class : ExcClass; exc_str : string }.

#[global] Instance Exc_eq_dec : EqDecision Exc.
Proof. solve_decision. Defined.

(** The members of [grpc.StatusCode] that the module sets. *)
Inductive StatusCode := UNAVAILABLE | INVALID_ARGUMENT | UNKNOWN.

#[global] Instance StatusCode_eq_dec : EqDecision StatusCode.
Proof. solve_decision. Defined.

(** ** Messages *)

Abbreviation byte := Init.Byte.byte.

#[global] Instance byte_eq_dec : EqDecision byte := Strings.Byte.byte_eq_dec.

(** [cartesi_machine_pb2.Hash(content=...)]. *)
Record Hash := mkHash { content : list byte }.

#[global] Instance Hash_eq_dec : EqDecision Hash.
Proof. solve_decision. Defined.

(** [cartesi_machine_pb2.RunResponse()], [cartesi_machine_pb2.Void()] and
    [machine_manager_pb2.SessionStepResponse()] are only ever built with
    their default field values. *)
Inductive RunResponse := RunResponse_default.
Inductive Void := Void_default.
Inductive SessionStepResponse := SessionStepResponse_default.

Record SessionRunResult := mkSessionRunResult {
  summaries : list RunResponse;
  hashes : list Hash
}.

(** Modelled from the spec: [utils.make_session_run_result], which is not
    part of the sources; it packs the per-step summaries and the parallel
    state fingerprints into the Session Run result, in the order given. *)
Definition make_session_run_result (summaries : list RunResponse)
    (hashes : list Hash) : SessionRunResult :=
  mkSessionRunResult summaries hashes.

(** The request messages, with the fields the handlers read. *)
Inductive MachineRequest := MachineRequest_opaque (payload : list byte).

Module NewSessionRequest.
Record t := mk { session_id : string; machine : MachineRequest }.
End NewSessionRequest.

Module SessionRunRequest.
Record t := mk { session_id : string; final_cycles : list Z }.
End SessionRunRequest.

Module SessionStepRequest.
Record t := mk { session_id : string; initial_cycle : Z }.
End SessionStepRequest.

Module AddressRequest.
Record t := mk { address : string; session_id : string }.
End AddressRequest.

(** ** The session registry, as the module sees it *)

(** A registry entry.  The module reads [address] (and takes [lock] around
    the read); [None] is Python's [None]. *)
Record SessionEntry := mkSessionEntry { address : option string }.

#[global] Instance SessionEntry_eq_dec : EqDecision SessionEntry.
Proof. solve_decision. Defined.

(** [SessionRegistryManager]: the attributes the module touches.  The locks
    ([global_lock], each entry's [lock]) are taken and released by [with]
    blocks; in this sequential model they are always free between
    statements and carry no state. *)
Record SessionRegistryManager := mkManager {
  registry : gmap string SessionEntry;
  shutting_down : bool;
  manager_address : string
}.

(** ** Interpreter state *)

Inductive LogRecord :=
| info (msg : string)
| debug (msg : string)
| error (msg : string)
| error_exc (e : Exc)          (* LOGGER.error(e) *)
| error_traceback (e : Exc).   (* LOGGER.error("An exception occurred: {}\nTraceback: {}"
                                   .format(e, traceback.format_exc())) *)

(** The [context] of one call: what [set_details] and [set_code] stored. *)
Record Context := mkContext {
  details : option string;
  code : option StatusCode
}.

Definition fresh_context : Context := mkContext None None.

Record State := mkState {
  session_registry_manager : SessionRegistryManager;
  DEFECTIVE : bool;           (* the module global *)
  LOGGER : list LogRecord;    (* records emitted so far, oldest first *)
  context : Context           (* the context of the call being served *)
}.

Definition with_manager (m : SessionRegistryManager) (st : State) : State :=
  mkState m (DEFECTIVE st) (LOGGER st) (context st).

Definition with_log (r : LogRecord) (st : State) : State :=
  mkState (session_registry_manager st) (DEFECTIVE st) (LOGGER st ++ [r]) (context st).

Definition with_context (c : Context) (st : State) : State :=
  mkState (session_registry_manager st) (DEFECTIVE st) (LOGGER st) c.

(** ** The statement monad *)

(** How a statement ends: control falls through with a value, a [return]
    was executed, or an exception is in flight. *)
Inductive Flow (R A : Type) :=
| Next (a : A)
| Return_ (r : R)
| Raise (e : Exc).
Arguments Next {R A} a.
Arguments Return_ {R A} r.
Arguments Raise {R A} e.

Definition Py (R A : Type) : Type := State → Flow R A * State.

Definition py_ret {R A} (a : A) : Py R A := λ st, (Next a, st).

Definition py_bind {R A B} (m : Py R A) (k : A → Py R B) : Py R B :=
  λ st, match m st with
        | (Next a, st') => k a st'
        | (Return_ r, st') => (Return_ r, st')
        | (Raise e, st') => (Raise e, st')
        end.

Declare Scope py_scope.
Delimit Scope py_scope with py.
Bind Scope py_scope with Py.
Notation "x ← y ; z" := (py_bind y (λ x, z)) (only parsing) : py_scope.
Notation "x ;; z" := (py_bind x (λ _, z)) (only parsing) : py_scope.

Definition return_ {R} (r : R) : Py R unit := λ st, (Return_ r, st).
Definition raise {R A} (e : Exc) : Py R A := λ st, (Raise e, st).

Definition gets {R A} (f : State → A) : Py R A := λ st, (Next (f st), st).
Definition modify {R} (f : State → State) : Py R unit := λ st, (Next tt, f st).

(** One [except] clause: the classes it lists and its suite. *)
Record ExceptClause (R : Type) := mkClause {
  catches : ExcClass → bool;
  suite : Exc → Py R unit
}.
Arguments mkClause {R} catches suite.
Arguments catches {R} _ _.
Arguments suite {R} _ _.

(** The first clause that lists the class of [e] runs; with none, [e] stays
    in flight. *)
Fixpoint dispatch {R} (clauses : list (ExceptClause R)) (e : Exc) : Py R unit :=
  match clauses with
  | [] => raise e
  | c :: cs => if catches c (exc_class e) then suite c e else dispatch cs e
  end.

Definition try_except {R} (body : Py R unit) (clauses : list (ExceptClause R))
    : Py R unit :=
  λ st, match body st with
        | (Raise e, st') => dispatch clauses e st'
        | other => other
        end.

(** The caller's view of a call. *)
Inductive Outcome (T : Type) :=
| Returned (r : option T)   (* [None] is Python's [None] *)
| Propagated (e : Exc).
Arguments Returned {T} r.
Arguments Propagated {T} e.

(** Calling a function whose body is [body]: falling off the end returns
    [None]. *)
Definition call {T} (body : Py (option T) unit) (st : State)
    : Outcome T * State :=
  match body st with
  | (Next _, st') => (Returned None, st')
  | (Return_ r, st') => (Returned r, st')
  | (Raise e, st') => (Propagated e, st')
  end.

(** ** Library calls the module makes *)

(** [bytes.fromhex]: two hexadecimal digits per byte; anything else is a
    [ValueError]. *)
Definition hex_digit (c : ascii) : option N :=
  let n := N_of_ascii c in
  if (48 <=? n)%N && (n <=? 57)%N then Some (n - 48)%N
  else if (97 <=? n)%N && (n <=? 102)%N then Some (n - 87)%N
  else if (65 <=? n)%N && (n <=? 70)%N then Some (n - 55)%N
  else None.

Fixpoint fromhex (s : string) : option (list byte) :=
  match s with
  | EmptyString => Some []
  | String hi (String lo rest) =>
      h ← hex_digit hi;
      l ← hex_digit lo;
      b ← Strings.Byte.of_N (16 * h + l);
      bs ← fromhex rest;
      Some (b :: bs)
  | String _ EmptyString => None
  end.

Local Open Scope py_scope.

Definition bytes_fromhex {R} (s : string) : Py R (list byte) :=
  match fromhex s with
  | Some bs => py_ret bs
  | None => raise (mkExc (OtherException "ValueError")
                         "non-hexadecimal number found in fromhex() arg")
  end.

(** [LOGGER.info], [LOGGER.debug], [LOGGER.error]. *)
Definition LOGGER_info {R} (msg : string) : Py R unit := modify (with_log (info msg)).
Definition LOGGER_debug {R} (msg : string) : Py R unit := modify (with_log (debug msg)).
Definition LOGGER_error {R} (e : Exc) : Py R unit := modify (with_log (error_exc e)).
Definition LOGGER_error_traceback {R} (e : Exc) : Py R unit :=
  modify (with_log (error_traceback e)).

(** [context.set_details], [context.set_code]. *)
Definition set_details {R} (d : string) : Py R unit :=
  modify (λ st, with_context (mkContext (Some d) (code (context st))) st).
Definition set_code {R} (c : StatusCode) : Py R unit :=
  modify (λ st, with_context (mkContext (details (context st)) (Some c)) st).

(** ["{}".format(final_cycles)] for a repeated integer field. *)
Fixpoint join (sep : string) (l : list string) : string :=
  match l with
  | [] => ""
  | [x] => x
  | x :: xs => x +:+ sep +:+ join sep xs
  end.

Definition repr_cycles (l : list Z) : string :=
  "[" +:+ join ", " (pretty <$> l) +:+ "]".

(** Modelled from the spec: [utils.validate_cycles] and [utils.CycleException],
    which are not part of the sources.  The target progress values are
    well-formed when they are non-negative and monotonically non-decreasing;
    otherwise the call fails with the invalid-cycle-range exception. *)
Fixpoint non_decreasing (l : list Z) : bool :=
  match l with
  | a :: (b :: _) as tl => (a <=? b)%Z && non_decreasing tl
  | _ => true
  end.

Definition well_formed_cycles (l : list Z) : bool :=
  forallb (λ c, 0 <=? c)%Z l && non_decreasing l.

Definition validate_cycles {R} (final_cycles : list Z) : Py R unit :=
  if well_formed_cycles final_cycles then py_ret tt
  else raise (mkExc CycleException "invalid cycle range").

(** Modelled from the spec: [register_address_for_session] of
    [SessionRegistryManager] and the exceptions of [session_registry], which
    are not part of the sources.  It fails with the unknown-session exception
    ([SessionIdException]) when the session id is absent from the registry,
    with the address-already-set exception ([AddressException]) when the
    entry's address is already set, and stores the address otherwise. *)
Definition register_address_for_session {R} (session_id address : string)
    : Py R unit :=
  λ st,
    let m := session_registry_manager st in
    match registry m !! session_id with
    | None =>
        (Raise (mkExc SessionIdException ("No session with id " +:+ session_id)), st)
    | Some (mkSessionEntry (Some _)) =>
        (Raise (mkExc AddressException
                  ("Address already set for session " +:+ session_id)), st)
    | Some (mkSessionEntry None) =>
        (Next tt,
         with_manager
           (mkManager (<[session_id := mkSessionEntry (Some address)]> (registry m))
                      (shutting_down m) (manager_address m)) st)
    end.

(** ** The [except] clauses *)

Definition dquote : string := String (ascii_of_nat 34) EmptyString.

(** [except (C1, ..., Cn) as e:], and [except Exception as e:], which
    catches the instances of [Exception] and of its subclasses and no
    other exception. *)
Definition except_ {R} (classes : list ExcClass) (s : Exc → Py R unit)
    : ExceptClause R :=
  mkClause (λ c, bool_decide (c ∈ classes)) s.

Definition except_Exception {R} (s : Exc → Py R unit) : ExceptClause R :=
  mkClause is_Exception s.

(** The suite of the classified clauses:
    [LOGGER.error(e); context.set_details("{}".format(e));
     context.set_code(grpc.StatusCode.INVALID_ARGUMENT)]. *)
Definition invalid_argument_suite {R} (e : Exc) : Py R unit :=
  LOGGER_error e;;
  set_details (exc_str e);;
  set_code INVALID_ARGUMENT.

(** The suite of the generic clause. *)
Definition unknown_suite {R} (e : Exc) : Py R unit :=
  LOGGER_error_traceback e;;
  set_details ("An exception with message " +:+ dquote +:+ exc_str e +:+ dquote
               +:+ " was raised!");;
  set_code UNKNOWN.

(** ** [_MachineManager] *)

(** [ServerShuttingDown(self, context)]. *)
Definition ServerShuttingDown {R} : Py R bool :=
  sd ← gets (λ st, shutting_down (session_registry_manager st));
  if sd then
    set_details "Server is shutting down, not accepting new requests";;
    set_code UNAVAILABLE;;
    py_ret true
  else
    py_ret false.

(** [if self.ServerShuttingDown(context): return]. *)
Definition return_if_shutting_down {T} : Py (option T) unit :=
  sd ← ServerShuttingDown;
  if sd then return_ None else py_ret tt.

Definition NewSession_body (request : NewSessionRequest.t)
    : Py (option Hash) unit :=
  return_if_shutting_down;;
  let session_id := NewSessionRequest.session_id request in
  let machine_req := NewSessionRequest.machine request in
  LOGGER_info ("New session requested with session_id: " +:+ session_id);;
  (* Return the fixed initial hash *)
  h ← bytes_fromhex "00";
  return_ (Some (mkHash h)).

Definition NewSession_except : list (ExceptClause (option Hash)) :=
  [ except_ [SessionIdException; AddressException] invalid_argument_suite;
    except_Exception unknown_suite ].

Definition SessionRun_body (request : SessionRunRequest.t)
    : Py (option SessionRunResult) unit :=
  return_if_shutting_down;;
  (* Return the fixed session run result *)
  let summaries := [RunResponse_default; RunResponse_default] in
  h0 ← bytes_fromhex "00";
  h1 ← bytes_fromhex "00";
  let hashes := [mkHash h0; mkHash h1] in
  defective ← gets DEFECTIVE;
  hashes ← (if defective : bool then
              d0 ← bytes_fromhex "00";
              d1 ← bytes_fromhex "01";
              py_ret [mkHash d0; mkHash d1]
            else py_ret hashes);
  let run_result := make_session_run_result summaries hashes in
  return_ (Some run_result);;
  (* the statements that follow the [return] in the source *)
  let session_id := SessionRunRequest.session_id request in
  let final_cycles := SessionRunRequest.final_cycles request in
  LOGGER_info ("New session run requested for session_id " +:+ session_id
               +:+ " with final cycles " +:+ repr_cycles final_cycles);;
  (* Validate cycle values *)
  validate_cycles final_cycles.

Definition SessionRun_except : list (ExceptClause (option SessionRunResult)) :=
  [ except_ [SessionIdException; AddressException; CycleException; RollbackException]
      invalid_argument_suite;
    except_Exception unknown_suite ].

Definition SessionStep_body (request : SessionStepRequest.t)
    : Py (option SessionStepResponse) unit :=
  return_if_shutting_down;;
  (* Return the empty session step result *)
  return_ (Some SessionStepResponse_default).

Definition SessionStep_except : list (ExceptClause (option SessionStepResponse)) :=
  [ except_ [SessionIdException; AddressException; CycleException; RollbackException]
      invalid_argument_suite;
    except_Exception unknown_suite ].

(** ** [_MachineDiscovery] *)

Definition CommunicateAddress_body (request : AddressRequest.t)
    : Py (option Void) unit :=
  let address := AddressRequest.address request in
  let session_id := AddressRequest.session_id request in
  LOGGER_info ("Received a CommunicateAddress request for session_id "
               +:+ session_id +:+ " and address " +:+ address);;
  register_address_for_session session_id address;;
  (* Returning *)
  return_ (Some Void_default).

Definition CommunicateAddress_except : list (ExceptClause (option Void)) :=
  [ except_ [SessionIdException] invalid_argument_suite;
    except_Exception unknown_suite ].

(** ** The handlers: a [try] statement around the body *)

(** A handler whose [try] suite is [body] and whose [except] clauses are
    [clauses], as the gRPC worker calls it. *)
Definition handler {T} (clauses : list (ExceptClause (option T)))
    (body : Py (option T) unit) (st : State) : Outcome T * State :=
  call (try_except body clauses) st.

Definition NewSession (request : NewSessionRequest.t) :=
  handler NewSession_except (NewSession_body request).

Definition SessionRun (request : SessionRunRequest.t) :=
  handler SessionRun_except (SessionRun_body request).

Definition SessionStep (request : SessionStepRequest.t) :=
  handler SessionStep_except (SessionStep_body request).

Definition CommunicateAddress (request : AddressRequest.t) :=
  handler CommunicateAddress_except (CommunicateAddress_body request).

Local Close Scope py_scope.

(** ** The command line and [serve] *)

Definition LISTENING_ADDRESS : string := "localhost".
Definition LISTENING_PORT : string := "50051".

(** The value the module assigns to the global [DEFECTIVE] when it is
    loaded. *)
Definition DEFECTIVE_at_import : bool := false.

Module Args.
Record t := mk { address : string; port : string; defective : bool }.
End Args.

(** The options the parser declares, as they occur on the command line:
    [--address/-a VALUE], [--port/-p VALUE] and the [store_true] flag
    [--defective/-d]. *)
Inductive CliOption :=
| OptAddress (value : string)
| OptPort (value : string)
| OptDefective.

#[global] Instance CliOption_eq_dec : EqDecision CliOption.
Proof. solve_decision. Defined.

Definition parse_option (args : Args.t) (o : CliOption) : Args.t :=
  match o with
  | OptAddress v => Args.mk v (Args.port args) (Args.defective args)
  | OptPort v => Args.mk (Args.address args) v (Args.defective args)
  | OptDefective => Args.mk (Args.address args) (Args.port args) true
  end.

(** [parser.parse_args()]: every destination starts at its default
    ([store_true] defaults to [False]) and each occurrence stores its
    value. *)
Definition parse_args (argv : list CliOption) : Args.t :=
  fold_left parse_option argv (Args.mk LISTENING_ADDRESS LISTENING_PORT false).

(** Modelled from the spec: the constructor of [SessionRegistryManager]
    (module [session_registry], not part of the sources): no entries, and
    [shutting_down] false at construction. *)
Definition SessionRegistryManager_init (manager_address : string)
    : SessionRegistryManager :=
  mkManager ∅ false manager_address.

(** [serve(args)] up to [server.start()]: the state the handlers start
    from. *)
Definition serve_start (args : Args.t) : State :=
  let listening_add := Args.address args in
  let listening_port := Args.port args in
  let DEFECTIVE := if Args.defective args then true else DEFECTIVE_at_import in
  let manager_address := listening_add +:+ ":" +:+ listening_port in
  let session_registry_manager := SessionRegistryManager_init manager_address in
  mkState session_registry_manager DEFECTIVE
    [info ("Server started, listening on address " +:+ listening_add
           +:+ " and port " +:+ listening_port)]
    fresh_context.

(** ** The shutdown path of [serve] *)

(** The test [if (entry.address):]: the address when it is neither [None]
    nor the empty string. *)
Definition truthy_address (entry : SessionEntry) : option string :=
  match address entry with
  | Some a => if bool_decide (a = "") then None else Some a
  | None => None
  end.

Section Shutdown.

(** [utils.shutdown_cartesi_machine_server(session_id, address)] is not
    part of the sources: it contacts the machine server of the session,
    so it acts on the world outside the process ([Remote]) and may raise. *)
Context {Remote : Type}.
Variable shutdown_cartesi_machine_server :
  string → string → Remote → option Exc * Remote.

Record Process := mkProcess {
  interp : State;
  remote : Remote;
  stop_calls : list (string * string);   (* calls of the stop primitive, oldest first *)
  server_stopped : bool                  (* [server.stop(0)] was reached *)
}.

Definition plog (r : LogRecord) (p : Process) : Process :=
  mkProcess (with_log r (interp p)) (remote p) (stop_calls p) (server_stopped p).

Definition set_shutting_down (p : Process) : Process :=
  let m := session_registry_manager (interp p) in
  mkProcess (with_manager (mkManager (registry m) true (manager_address m)) (interp p))
            (remote p) (stop_calls p) (server_stopped p).

(** The loop [for session_id in session_registry_manager.registry.keys():]
    over the keys in the order [keys] in which the dict yields them.  The
    result is the exception that left the loop, if any. *)
Fixpoint drain (keys : list string) (p : Process) : option Exc * Process :=
  match keys with
  | [] => (None, p)
  | session_id :: rest =>
      let p := plog (debug ("Acquiring lock for session " +:+ session_id)) p in
      match registry (session_registry_manager (interp p)) !! session_id with
      | None => (Some (mkExc KeyError session_id), p)
      | Some entry =>
          let p := plog (debug ("Lock for session " +:+ session_id +:+ " acquired")) p in
          match truthy_address entry with
          | Some a =>
              let '(r, rm) := shutdown_cartesi_machine_server session_id a (remote p) in
              let p := mkProcess (interp p) rm (stop_calls p ++ [(session_id, a)])
                                 (server_stopped p) in
              match r with
              | Some e => (Some e, p)
              | None => drain rest p
              end
          | None => drain rest p
          end
      end
  end.

Definition newline : string := String (ascii_of_nat 10) EmptyString.

(** The suite of [except KeyboardInterrupt:], up to the loop: the flag is
    set under the global lock. *)
Definition flag_shutdown (p : Process) : Process :=
  let p := plog (info (newline +:+ "Issued to shut down")) p in
  let p := plog (debug "Acquiring session registry global lock") p in
  let p := plog (debug "Session registry global lock acquired") p in
  set_shutting_down p.

(** The whole suite: the flag, the loop, then [server.stop(0)] and the
    wait.  An exception that leaves the loop leaves [serve]. *)
Definition serve_shutdown (keys : list string) (p : Process)
    : option Exc * Process :=
  let p := flag_shutdown p in
  (* Shutdown all active sessions servers *)
  match drain keys p with
  | (Some e, p) => (Some e, p)
  | (None, p) =>
      let p := mkProcess (interp p) (remote p) (stop_calls p) true in
      let p := plog (info "Waiting for server to stop") p in
      let p := plog (info "Server stopped") p in
      (None, p)
  end.

End Shutdown.

Arguments Process Remote : clear implicits.

(** The number of calls of the stop primitive for a session. *)
Definition calls_on (session_id : string) (calls : list (string * string)) : nat :=
  length (filter (λ c, c.1 = session_id) calls).

(** The address the drain finds truthy for a session id, if any, and the
    calls of the stop primitive that a pass over [keys] is due to make. *)
Definition addressed (reg : gmap string SessionEntry) (session_id : string)
    : option string :=
  reg !! session_id ≫= truthy_address.

Definition planned (reg : gmap string SessionEntry) (keys : list string)
    : list (string * string) :=
  omap (λ k, (λ a, (k, a)) <$> addressed reg k) keys.

(** The keys of the registry dict, in some order. *)
Definition registry_keys (st : State) : list string :=
  (map_to_list (registry (session_registry_manager st))).*1.

(** ** What an [except] suite leaves behind *)

(** The state after an exception [e], in flight in state [st1], met the
    classified clause ([classified] true) or the generic clause
    ([classified] false) of a handler: one error record is appended, and
    both the detail message and the status code are overwritten. *)
Definition report (classified : bool) (e : Exc) (st1 : State) : State :=
  if classified then
    with_context (mkContext (Some (exc_str e)) (Some INVALID_ARGUMENT))
      (with_log (error_exc e) st1)
  else
    with_context
      (mkContext (Some ("An exception with message " +:+ dquote +:+ exc_str e
                        +:+ dquote +:+ " was raised!")) (Some UNKNOWN))
      (with_log (error_traceback e) st1).

(** ** Handler calls served one after another *)

(** A request to one of the four handlers.  The transport hands every call
    a context of its own. *)
Inductive Request :=
| ReqNewSession (request : NewSessionRequest.t)
| ReqSessionRun (request : SessionRunRequest.t)
| ReqSessionStep (request : SessionStepRequest.t)
| ReqCommunicateAddress (request : AddressRequest.t).

Definition serve_request (req : Request) (st : State) : State :=
  let st := with_context fresh_context st in
  match req with
  | ReqNewSession request => (NewSession request st).2
  | ReqSessionRun request => (SessionRun request st).2
  | ReqSessionStep request => (SessionStep request st).2
  | ReqCommunicateAddress request => (CommunicateAddress request st).2
  end.

Definition serve_requests (reqs : list Request) (st : State) : State :=
  fold_left (λ st req, serve_request req st) reqs st.

(** ** Statements of the specification, worded as it words them *)

(** The placeholder fingerprint [Hash(content=bytes.fromhex("00"))]. *)
Definition placeholder : Hash := mkHash [Init.Byte.x00].

(** What the generic and the classified [except] clauses leave behind when
    they catch [e] in state [st1]: one error record, a detail message and a
    status code. *)
Definition reported (e : Exc) (st1 st' : State) : Prop :=
  ∃ rec d c,
    st' = with_context (mkContext (Some d) (Some c)) (with_log rec st1)
    ∧ (rec = error_exc e ∨ rec = error_traceback e)
    ∧ (c = INVALID_ARGUMENT ∨ c = UNKNOWN).

(** A [try] statement with these clauses lets nothing through: whatever its
    suite does, the call returns. *)
Definition caught_at_boundary {T} (clauses : list (ExceptClause (option T))) : Prop :=
  ∀ (body : Py (option T) unit) (st : State),
    match body st with
    | (Raise e, st1) =>
        ∃ st', handler clauses body st = (Returned None, st') ∧ reported e st1 st'
    | (Return_ r, st1) => handler clauses body st = (Returned r, st1)
    | (Next _, st1) => handler clauses body st = (Returned None, st1)
    end.

(** The boundary for the instances of [Exception] only: such an exception
    raised inside the suite is caught and reported, the call returning
    [None]; any other exception leaves the call as it was raised, in the
    state in which the suite raised it. *)
Definition caught_iff_Exception {T} (clauses : list (ExceptClause (option T)))
    : Prop :=
  ∀ (body : Py (option T) unit) (st : State),
    match body st with
    | (Raise e, st1) =>
        if is_Exception (exc_class e)
        then ∃ st', handler clauses body st = (Returned None, st')
                    ∧ reported e st1 st'
        else handler clauses body st = (Propagated e, st1)
    | (Return_ r, st1) => handler clauses body st = (Returned r, st1)
    | (Next _, st1) => handler clauses body st = (Returned None, st1)
    end.

(** Session Run answers with one summary and one fingerprint per requested
    checkpoint. *)
Definition one_pair_per_checkpoint (request : SessionRunRequest.t) (st : State)
    : Prop :=
  ∃ res st',
    SessionRun request st = (Returned (Some res), st')
    ∧ length (summaries res) = length (SessionRunRequest.final_cycles request)
    ∧ length (hashes res) = length (SessionRunRequest.final_cycles request).

(** The second of two New Session requests with one session id fails as an
    invalid argument (duplicate session) and leaves the registry as the
    first request left it.  Each request comes with its own context. *)
Definition second_creation_is_duplicate (request : NewSessionRequest.t)
    (st0 : State) : Prop :=
  let st1 := (NewSession request (with_context fresh_context st0)).2 in
  let '(r2, st2) := NewSession request (with_context fresh_context st1) in
  r2 = Returned None
  ∧ code (context st2) = Some INVALID_ARGUMENT
  ∧ session_registry_manager st2 = session_registry_manager st1.

(** The shutdown drain calls the stop primitive exactly once for every entry
    whose address is set and never for an entry whose address is unset. *)
Definition stop_once_per_addressed_entry {Remote}
    (stop : string → string → Remote → option Exc * Remote)
    (keys : list string) (p : Process Remote) : Prop :=
  let p' := (serve_shutdown stop keys p).2 in
  ∀ session_id entry,
    registry (session_registry_manager (interp p)) !! session_id = Some entry →
    calls_on session_id (stop_calls p')
    = match address entry with Some _ => 1 | None => 0 end.

(** An error of the stop primitive is logged and the drain goes on: it runs
    to completion and every entry with an address is contacted. *)
Definition drain_survives_stop_errors {Remote}
    (stop : string → string → Remote → option Exc * Remote)
    (keys : list string) (p : Process Remote) : Prop :=
  let '(r, p') := serve_shutdown stop keys p in
  r = None
  ∧ ∀ session_id entry a,
      registry (session_registry_manager (interp p)) !! session_id = Some entry →
      truthy_address entry = Some a →
      (session_id, a) ∈ stop_calls p'.

(** ** Sample inputs *)

(** The server as [serve] starts it without options, and with [--defective]. *)
Definition started : State := serve_start (parse_args []).
Definition started_defective : State := serve_start (parse_args [OptDefective]).

(** A registry holding the given entries. *)
Definition state_with (entries : list (string * SessionEntry)) : State :=
  mkState (mkManager (list_to_map entries) false "localhost:50051") false []
          fresh_context.

Definition process_with (entries : list (string * SessionEntry)) : Process unit :=
  mkProcess (state_with entries) tt [] false.

(** A stop primitive that always succeeds, and one that cannot reach the
    machine server of session [S1]. *)
Definition stop_ok (session_id address : string) (rm : unit) : option Exc * unit :=
  (None, rm).

Definition stop_S1_unreachable (session_id address : string) (rm : unit)
    : option Exc * unit :=
  if bool_decide (session_id = "S1")
  then (Some (mkExc (OtherException "RpcError") "failed to connect"), rm)
  else (None, rm).

(** The state the shutdown path leaves when the registry is empty. *)
Definition shut_down : State :=
  interp (serve_shutdown stop_ok [] (mkProcess started tt [] false)).2.

Definition sample_new_session : NewSessionRequest.t :=
  NewSessionRequest.mk "S1" (MachineRequest_opaque []).

Definition sample_step : SessionStepRequest.t := SessionStepRequest.mk "S1" 0.

(** Session Run requests for one, two and badly ordered checkpoints. *)
Definition run_one : SessionRunRequest.t := SessionRunRequest.mk "S1" [100%Z].
Definition run_two : SessionRunRequest.t := SessionRunRequest.mk "S1" [100%Z; 200%Z].
Definition run_decreasing : SessionRunRequest.t :=
  SessionRunRequest.mk "S2" [200%Z; 100%Z].

(** A registry in which session [S1] has registered its address, and a
    second announcement for it. *)
Definition addressed_S1 : State :=
  state_with [("S1", mkSessionEntry (Some "10.0.0.1:9000"))].

Definition second_announcement : AddressRequest.t :=
  AddressRequest.mk "10.0.0.2:9000" "S1".


(** Two sessions that both registered an address, in the order the dict
    yields them, and a session whose announced address was the empty
    string. *)
Definition two_addressed : Process unit :=
  process_with [("S1", mkSessionEntry (Some "10.0.0.1:9000"));
                ("S2", mkSessionEntry (Some "10.0.0.2:9000"))].

Definition empty_address : Process unit :=
  process_with [("S1", mkSessionEntry (Some ""))].

Definition rpc_error : Exc := mkExc (OtherException "RpcError") "failed to connect".

(** [KeyboardInterrupt()] and [SystemExit(1)], as [handle_sigterm] and
    [sys.exit(1)] raise them. *)
Definition interrupt : Exc := mkExc KeyboardInterrupt "".
Definition system_exit : Exc := mkExc SystemExit "1".

(** A session that was created but never announced an address. *)
Definition unannounced : Process unit :=
  process_with [("S1", mkSessionEntry None)].

(** A registry in which session [S1] exists without an address, and its
    first announcement. *)
Definition created_S1 : State := state_with [("S1", mkSessionEntry None)].

Definition first_announcement : AddressRequest.t :=
  AddressRequest.mk "10.0.0.1:9000" "S1".

(** * Properties *)

(** ** The statement monad and the handler boundary *)

(** The classes a clause lists are subclasses of [Exception]. *)
Ltac listed_classes :=
  let c := fresh "c" in
  let Hin := fresh "Hin" in
  intros c Hin;
  repeat (apply elem_of_cons in Hin as [-> | Hin]; [reflexivity |]);
  by apply elem_of_nil in Hin.

(** Reading a handler's table off its clauses, class by class. *)
Ltac decide_classes :=
  repeat match goal with
         | |- context [bool_decide ?P] =>
             let b := eval vm_compute in (bool_decide P) in
             change (bool_decide P) with b
         end.

Ltac read_table :=
  decide_classes;
  cbn [report is_Exception fst snd session_registry_manager context code
       with_context with_log];
  split_and!; try reflexivity; try discriminate;
  (split;
   [ intros [Hr Hc]; first [discriminate Hr | discriminate Hc | idtac];
     first [ by left | by right | right; by eexists
           | split_and!; (reflexivity || discriminate) | reflexivity ]
   | intros Hcls;
     first [ by split
           | exfalso; clear - Hcls;
             first [ discriminate Hcls
                   | destruct Hcls as [Hcls | Hcls];
                     first [ discriminate Hcls
                           | destruct Hcls as [? Hcls]; discriminate Hcls ]
                   | destruct Hcls as (Hcls1 & Hcls2 & Hcls3);
                     first [ discriminate Hcls1 | by destruct Hcls2
                           | by destruct Hcls3 ]
                   | destruct Hcls as (Hcls1 & Hcls2);
                     first [ discriminate Hcls1 | by destruct Hcls2 ] ] ] ]).

(** What a handler with a classified clause and the generic clause makes of
    an exception raised in its suite: the classified clause comes first,
    then [except Exception] takes the instances of [Exception], and
    anything else stays in flight and leaves the call. *)
Lemma two_clause_outcome {T} (classes : list ExcClass)
    (body : Py (option T) unit) e st st1 :
  body st = (Raise e, st1) →
  handler [except_ classes invalid_argument_suite; except_Exception unknown_suite]
    body st
  = if bool_decide (exc_class e ∈ classes) then (Returned None, report true e st1)
    else if is_Exception (exc_class e) then (Returned None, report false e st1)
    else (Propagated e, st1).
Proof.
  intros Hbody. unfold handler, call, try_except. rewrite Hbody.
  cbn [dispatch catches except_ except_Exception suite].
  destruct (bool_decide (exc_class e ∈ classes)); [reflexivity |].
  destruct (is_Exception (exc_class e)); reflexivity.
Qed.

Lemma report_reported classified e st1 : reported e st1 (report classified e st1).
Proof.
  destruct classified; cbn [report].
  - exists (error_exc e), (exc_str e), INVALID_ARGUMENT. repeat split; auto.
  - eexists (error_traceback e), _, UNKNOWN. repeat split; auto.
Qed.

(** A handler whose classified classes are all subclasses of [Exception]
    catches the instances of [Exception] and nothing else. *)
Lemma two_clause_boundary {T} (classes : list ExcClass) :
  (∀ c, c ∈ classes → is_Exception c = true) →
  caught_iff_Exception (T := T)
    [except_ classes invalid_argument_suite; except_Exception unknown_suite].
Proof.
  intros Hsub body st.
  destruct (body st) as [[a | r | e] st1] eqn:Hbody;
    [unfold handler, call, try_except; by rewrite Hbody ..|].
  rewrite (two_clause_outcome classes body e st st1 Hbody).
  destruct (decide (exc_class e ∈ classes)) as [Hin | Hin].
  - rewrite bool_decide_eq_true_2 by done. rewrite (Hsub _ Hin).
    eexists. split; [reflexivity | apply report_reported].
  - rewrite bool_decide_eq_false_2 by done.
    destruct (is_Exception (exc_class e)); [| reflexivity].
    eexists. split; [reflexivity | apply report_reported].
Qed.

(** ** Session Run returns its fixed result *)

Lemma SessionRun_fixed request st :
  shutting_down (session_registry_manager st) = false →
  SessionRun request st
  = (Returned (Some (make_session_run_result
                       [RunResponse_default; RunResponse_default]
                       [placeholder;
                        if DEFECTIVE st then mkHash [Init.Byte.x01] else placeholder])),
     st).
Proof.
  destruct st as [[reg sd ma] d log ctx]. cbn. intros ->.
  destruct d; reflexivity.
Qed.

Lemma NewSession_fixed request st :
  shutting_down (session_registry_manager st) = false →
  NewSession request st
  = (Returned (Some placeholder),
     with_log (info ("New session requested with session_id: "
                     +:+ NewSessionRequest.session_id request)) st).
Proof.
  destruct st as [[reg sd ma] d log ctx]. cbn. intros ->. reflexivity.
Qed.

(** C1: once [shutting_down] is set, New Session, Session Run and Session
    Step each return at once with status UNAVAILABLE and the shutting-down
    detail message, and leave the registry (and the log) as they found
    them. *)
Theorem shutting_down_fails_fast st r1 r2 r3 :
  shutting_down (session_registry_manager st) = true →
  let st' := with_context
               (mkContext (Some "Server is shutting down, not accepting new requests")
                          (Some UNAVAILABLE)) st in
  NewSession r1 st = (Returned None, st')
  ∧ SessionRun r2 st = (Returned None, st')
  ∧ SessionStep r3 st = (Returned None, st')
  ∧ session_registry_manager st' = session_registry_manager st
  ∧ LOGGER st' = LOGGER st.
Proof.
  destruct st as [[reg sd ma] d log ctx]. cbn. intros ->. repeat split.
Qed.

Lemma shutting_down_fails_fast_witness :
  shutting_down (session_registry_manager shut_down) = true
  ∧ NewSession sample_new_session shut_down
    = (Returned None,
       with_context
         (mkContext (Some "Server is shutting down, not accepting new requests")
                    (Some UNAVAILABLE)) shut_down).
Proof.
  split; [reflexivity |].
  apply (shutting_down_fails_fast shut_down sample_new_session
           run_two sample_step).
  reflexivity.
Defined.

(** C2, as the specification words it, fails: a request for one checkpoint
    is answered with two summaries and two fingerprints. *)
Lemma one_pair_per_checkpoint_fails : ¬ one_pair_per_checkpoint run_one started.
Proof.
  intros (res & st' & Hrun & Hs & _).
  rewrite SessionRun_fixed in Hrun by reflexivity.
  injection Hrun as <- _. discriminate Hs.
Qed.

(** C2, amended: while the server is not shutting down, Session Run answers
    every request with exactly two summaries and exactly two fingerprints,
    whatever the number of requested checkpoints, and changes nothing. *)
Theorem SessionRun_two_pairs request st :
  shutting_down (session_registry_manager st) = false →
  ∃ res,
    SessionRun request st = (Returned (Some res), st)
    ∧ length (summaries res) = 2
    ∧ length (hashes res) = 2.
Proof.
  intros Hsd. eexists. rewrite SessionRun_fixed by done. repeat split.
Qed.

Lemma SessionRun_two_pairs_witness :
  shutting_down (session_registry_manager started) = false
  ∧ ∃ res,
      SessionRun run_one started = (Returned (Some res), started)
      ∧ length (summaries res) = 2
      ∧ length (hashes res) = 2.
Proof.
  split; [reflexivity |]. apply (SessionRun_two_pairs run_one started). reflexivity.
Defined.


(** C4, as the specification words it, fails: the second New Session request
    for [S1] is answered like the first. *)
Lemma second_creation_is_duplicate_fails :
  ¬ second_creation_is_duplicate sample_new_session started.
Proof. intros (H & _). discriminate H. Qed.

(** C4, amended: while the server is not shutting down, both of two New
    Session requests with the same session id succeed with the fixed initial
    fingerprint and no status code, and neither changes the registry. *)
Theorem NewSession_twice request st0 :
  shutting_down (session_registry_manager st0) = false →
  let '(r1, st1) := NewSession request (with_context fresh_context st0) in
  let '(r2, st2) := NewSession request (with_context fresh_context st1) in
  r1 = Returned (Some placeholder)
  ∧ r2 = Returned (Some placeholder)
  ∧ context st2 = fresh_context
  ∧ session_registry_manager st1 = session_registry_manager st0
  ∧ session_registry_manager st2 = session_registry_manager st0.
Proof.
  intros Hsd. rewrite NewSession_fixed by done.
  rewrite NewSession_fixed by done. repeat split.
Qed.

Lemma NewSession_twice_witness :
  shutting_down (session_registry_manager started) = false
  ∧ (NewSession sample_new_session
       (with_context fresh_context
          (NewSession sample_new_session (with_context fresh_context started)).2)).1
    = Returned (Some placeholder).
Proof.
  split; [reflexivity |].
  pose proof (NewSession_twice sample_new_session started eq_refl) as H.
  destruct (NewSession sample_new_session (with_context fresh_context started))
    as [r1 st1].
  cbn [snd].
  destruct (NewSession sample_new_session (with_context fresh_context st1))
    as [r2 st2].
  exact (proj1 (proj2 H)).
Defined.

(** ** The failure-to-code mapping *)

(** What each handler's clauses make of an exception of a given class. *)
Lemma classified_as_invalid_argument {T} (classes : list ExcClass)
    (body : Py (option T) unit) e st st1 :
  body st = (Raise e, st1) →
  exc_class e ∈ classes →
  handler [except_ classes invalid_argument_suite; except_Exception unknown_suite]
    body st
  = (Returned None,
     with_context (mkContext (Some (exc_str e)) (Some INVALID_ARGUMENT))
       (with_log (error_exc e) st1)).
Proof.
  intros Hbody Hin. unfold handler, call, try_except. rewrite Hbody.
  cbn [dispatch catches except_ suite].
  rewrite bool_decide_eq_true_2 by done. reflexivity.
Qed.

Lemma unclassified_as_unknown {T} (classes : list ExcClass)
    (body : Py (option T) unit) e st st1 :
  body st = (Raise e, st1) →
  exc_class e ∉ classes →
  is_Exception (exc_class e) = true →
  handler [except_ classes invalid_argument_suite; except_Exception unknown_suite]
    body st
  = (Returned None,
     with_context
       (mkContext (Some ("An exception with message " +:+ dquote +:+ exc_str e
                         +:+ dquote +:+ " was raised!")) (Some UNKNOWN))
       (with_log (error_traceback e) st1)).
Proof.
  intros Hbody Hin Hexc. unfold handler, call, try_except. rewrite Hbody.
  cbn [dispatch catches except_ except_Exception suite].
  rewrite bool_decide_eq_false_2 by done. rewrite Hexc. reflexivity.
Qed.


(** C8, as the specification words it, fails: [except Exception] does not
    catch every exception.  A [KeyboardInterrupt] raised inside the suite of
    any of the four handlers passes both clauses and leaves the call,
    with nothing logged and no status code set. *)
Lemma caught_at_boundary_fails :
  ¬ caught_at_boundary NewSession_except
  ∧ ¬ caught_at_boundary SessionRun_except
  ∧ ¬ caught_at_boundary SessionStep_except
  ∧ ¬ caught_at_boundary CommunicateAddress_except
  ∧ handler NewSession_except (raise interrupt) started
    = (Propagated interrupt, started).
Proof.
  repeat split; try (intros H; specialize (H (raise interrupt) started);
                     destruct H as (st' & H & _); discriminate H).
Qed.

(** C8, amended: every handler catches at its boundary the exceptions that
    are instances of [Exception], and only those.  Whatever the suite of
    its [try] statement does: a value that the suite returned is passed on;
    an instance of [Exception] raised inside the suite is caught, logged
    with one error record and turned into a status code (INVALID_ARGUMENT
    or UNKNOWN) and a detail message, the handler returning [None]; and an
    exception that is not an instance of [Exception] ([KeyboardInterrupt],
    [SystemExit], [GeneratorExit]) propagates to the worker, with nothing
    logged and no code or detail set by the handler.  The bodies of the
    four handlers as written raise instances of [Exception] only, so for
    every request their calls return. *)
Theorem handlers_catch_exactly_Exception :
  caught_iff_Exception NewSession_except
  ∧ caught_iff_Exception SessionRun_except
  ∧ caught_iff_Exception SessionStep_except
  ∧ caught_iff_Exception CommunicateAddress_except
  ∧ (∀ request st, ∃ r st', NewSession request st = (Returned r, st'))
  ∧ (∀ request st, ∃ r st', SessionRun request st = (Returned r, st'))
  ∧ (∀ request st, ∃ r st', SessionStep request st = (Returned r, st'))
  ∧ (∀ request st, ∃ r st', CommunicateAddress request st = (Returned r, st')).
Proof.
  split; [apply two_clause_boundary; listed_classes |].
  split; [apply two_clause_boundary; listed_classes |].
  split; [apply two_clause_boundary; listed_classes |].
  split; [apply two_clause_boundary; listed_classes |].
  split; [| split; [| split]].
  - intros request [[reg sd ma] d log ctx]. destruct sd; cbn; eauto.
  - intros request [[reg sd ma] d log ctx]. destruct sd, d; cbn; eauto.
  - intros request [[reg sd ma] d log ctx]. destruct sd; cbn; eauto.
  - intros [addr sid] [[reg sd ma] d log ctx].
    unfold CommunicateAddress, handler, call, try_except,
      CommunicateAddress_body, py_bind, LOGGER_info, modify,
      register_address_for_session.
    cbn. destruct (reg !! sid) as [[[a |]] |]; cbn; eauto.
Qed.

(** ** The error-injection mode *)

Lemma parse_args_defective_from (argv : list CliOption) (args : Args.t) :
  Args.defective (fold_left parse_option argv args)
  = Args.defective args || bool_decide (OptDefective ∈ argv).
Proof.
  revert args. induction argv as [| o argv IH]; intros args; cbn [fold_left].
  - rewrite bool_decide_eq_false_2 by apply not_elem_of_nil.
    by rewrite orb_false_r.
  - rewrite IH. destruct o; cbn [parse_option Args.defective].
    + f_equal. apply bool_decide_ext. rewrite elem_of_cons. intuition congruence.
    + f_equal. apply bool_decide_ext. rewrite elem_of_cons. intuition congruence.
    + rewrite (bool_decide_eq_true_2 (OptDefective ∈ OptDefective :: argv))
        by (apply elem_of_cons; by left).
      by rewrite orb_true_r.
Qed.

Lemma serve_start_DEFECTIVE (argv : list CliOption) :
  DEFECTIVE (serve_start (parse_args argv)) = bool_decide (OptDefective ∈ argv).
Proof.
  unfold serve_start, parse_args. cbn [DEFECTIVE].
  rewrite parse_args_defective_from. cbn [Args.defective orb].
  unfold DEFECTIVE_at_import. by destruct (bool_decide _).
Qed.

(** C9: the error-injection mode is opt-in.  The global [DEFECTIVE] is false
    when the module is loaded, and the server starts with it set exactly
    when the defective flag is on the command line.  While the server is
    not shutting down, Session Run returns two fingerprints: with the mode
    off both are the placeholder, with the mode on the first is the
    placeholder and the second differs from it. *)
Theorem defective_mode_opt_in (argv : list CliOption)
    (request : SessionRunRequest.t) (st : State) :
  shutting_down (session_registry_manager st) = false →
  DEFECTIVE_at_import = false
  ∧ (DEFECTIVE (serve_start (parse_args argv)) = true ↔ OptDefective ∈ argv)
  ∧ ∃ res h0 h1,
      SessionRun request st = (Returned (Some res), st)
      ∧ hashes res = [h0; h1]
      ∧ (DEFECTIVE st = false → h0 = placeholder ∧ h1 = placeholder)
      ∧ (DEFECTIVE st = true → h0 = placeholder ∧ h1 ≠ placeholder).
Proof.
  intros Hsd. split; [reflexivity |]. split.
  - rewrite serve_start_DEFECTIVE. apply bool_decide_eq_true.
  - rewrite SessionRun_fixed by done. do 3 eexists.
    split; [reflexivity |]. split; [reflexivity |].
    split; intros ->; split; (reflexivity || discriminate).
Qed.

Lemma defective_mode_opt_in_witness :
  shutting_down (session_registry_manager started_defective) = false
  ∧ (DEFECTIVE (serve_start (parse_args [OptPort "8080"])) = true
     ↔ OptDefective ∈ [OptPort "8080"])
  ∧ ∃ res h0 h1,
      SessionRun run_two started_defective = (Returned (Some res), started_defective)
      ∧ hashes res = [h0; h1]
      ∧ (DEFECTIVE started_defective = false → h0 = placeholder ∧ h1 = placeholder)
      ∧ (DEFECTIVE started_defective = true → h0 = placeholder ∧ h1 ≠ placeholder).
Proof.
  split; [reflexivity |].
  exact (proj2 (defective_mode_opt_in [OptPort "8080"] run_two started_defective
                  eq_refl)).
Defined.

(** C10: while the server is not shutting down, the response of Session Run
    is a function of the [DEFECTIVE] flag alone: two requests served under
    the same flag get identical responses, whatever their session ids and
    requested final cycles (and whatever else the two states hold). *)
Theorem SessionRun_response_independent
    (request1 request2 : SessionRunRequest.t) (st1 st2 : State) :
  shutting_down (session_registry_manager st1) = false →
  shutting_down (session_registry_manager st2) = false →
  DEFECTIVE st1 = DEFECTIVE st2 →
  (SessionRun request1 st1).1 = (SessionRun request2 st2).1.
Proof.
  intros H1 H2 Hd. rewrite !SessionRun_fixed by done. cbn [fst]. by rewrite Hd.
Qed.

Lemma SessionRun_response_independent_witness :
  shutting_down (session_registry_manager started) = false
  ∧ shutting_down (session_registry_manager addressed_S1) = false
  ∧ DEFECTIVE started = DEFECTIVE addressed_S1
  ∧ (SessionRun run_two started).1 = (SessionRun run_decreasing addressed_S1).1.
Proof.
  do 3 (split; [reflexivity |]).
  apply (SessionRun_response_independent run_two run_decreasing started addressed_S1);
    reflexivity.
Defined.

(** ** The shutdown drain *)

Local Open Scope list_scope.

Lemma calls_on_app session_id (l1 l2 : list (string * string)) :
  calls_on session_id (l1 ++ l2) = calls_on session_id l1 + calls_on session_id l2.
Proof. unfold calls_on. by rewrite filter_app, length_app. Qed.

Lemma planned_app reg (l1 l2 : list string) :
  planned reg (l1 ++ l2) = planned reg l1 ++ planned reg l2.
Proof. unfold planned. apply omap_app. Qed.

(** A pass over [keys] calls the stop primitive for [session_id] as often
    as the id occurs among the keys, when it has a truthy address, and never
    otherwise. *)
Lemma calls_on_planned reg session_id (keys : list string) :
  calls_on session_id (planned reg keys)
  = match addressed reg session_id with
    | Some _ => length (filter (λ k, k = session_id) keys)
    | None => 0
    end.
Proof.
  induction keys as [| k keys IH]; [by destruct (addressed _ _) |].
  unfold planned in *. cbn [omap list_omap]. rewrite filter_cons.
  destruct (decide (k = session_id)) as [-> | Hne].
  - destruct (addressed reg session_id) as [a |] eqn:Ha; cbn [fmap option_fmap option_map].
    + unfold calls_on in *. rewrite filter_cons. cbn [fst].
      rewrite decide_True by done. cbn [length]. by rewrite IH.
    + exact IH.
  - destruct (addressed reg k) as [a |]; cbn [fmap option_fmap option_map];
      [| exact IH].
    unfold calls_on in *. rewrite filter_cons. cbn [fst].
    rewrite decide_False by done. exact IH.
Qed.

Lemma occurrences_NoDup (session_id : string) (keys : list string) :
  NoDup keys →
  length (filter (λ k, k = session_id) keys)
  = if decide (session_id ∈ keys) then 1 else 0.
Proof.
  induction 1 as [| k keys Hnotin Hnd IH]; [done |].
  rewrite filter_cons. destruct (decide (k = session_id)) as [-> | Hne].
  - cbn [length]. rewrite IH. rewrite decide_False by done.
    rewrite decide_True by (apply elem_of_cons; by left). done.
  - rewrite IH. destruct (decide (session_id ∈ keys)) as [Hin | Hin].
    + rewrite decide_True by (apply elem_of_cons; by right). done.
    + rewrite decide_False; [done |].
      rewrite elem_of_cons. intros [-> | ?]; done.
Qed.

Section Drain.

Context {Remote : Type}.
Variable stop : string → string → Remote → option Exc * Remote.

Implicit Types (p : Process Remote) (keys : list string).

Lemma drain_app keys1 keys2 p :
  drain stop (keys1 ++ keys2) p
  = match drain stop keys1 p with
    | (None, p1) => drain stop keys2 p1
    | (Some e, p1) => (Some e, p1)
    end.
Proof.
  revert p. induction keys1 as [| k keys1 IH]; intros p; [done |].
  cbn [app drain].
  destruct (registry _ !! k) as [entry |]; [| done].
  destruct (truthy_address entry) as [a |]; [| apply IH].
  destruct (stop k a _) as [[e |] rm]; [done | apply IH].
Qed.

(** The loop reads the registry and never writes it; it does not reach
    [server.stop]; and the calls it makes are those planned for the keys
    it got through, which are all the keys when it ends normally. *)
Lemma drain_calls keys p r p' :
  drain stop keys p = (r, p') →
  session_registry_manager (interp p') = session_registry_manager (interp p)
  ∧ server_stopped p' = server_stopped p
  ∧ ∃ done rest,
      keys = done ++ rest
      ∧ stop_calls p'
        = stop_calls p
          ++ planned (registry (session_registry_manager (interp p))) done
      ∧ (r = None → rest = []).
Proof.
  revert p. induction keys as [| k keys IH]; intros p; cbn [drain].
  - intros [= <- <-]. split; [done |]. split; [done |]. exists [], [].
    cbn. by rewrite app_nil_r.
  - cbn [plog interp with_log session_registry_manager].
    destruct (registry (session_registry_manager (interp p)) !! k)
      as [entry |] eqn:Hk.
    + assert (Hplan : ∀ l, planned (registry (session_registry_manager (interp p)))
                             (k :: l)
                           = match truthy_address entry with
                             | Some a => [(k, a)]
                             | None => []
                             end
                             ++ planned (registry (session_registry_manager
                                                     (interp p))) l).
      { intros l. unfold planned, addressed. cbn [omap list_omap]. rewrite Hk.
        cbn [mbind option_bind]. by destruct (truthy_address entry). }
      destruct (truthy_address entry) as [a |] eqn:Ha.
      * destruct (stop k a _) as [[e |] rm] eqn:Hstop.
        -- intros [= <- <-]. split; [done |]. split; [done |].
           exists [k], keys. split; [done |]. split; [| done].
           cbn [stop_calls]. by rewrite Hplan.
        -- intros Hd. apply IH in Hd as (Hm & Hs & done & rest & -> & Hc & Hr).
           cbn [interp session_registry_manager server_stopped stop_calls] in *.
           split; [done |]. split; [done |]. exists (k :: done), rest.
           split; [done |]. split; [| done].
           by rewrite Hc, Hplan, <- !app_assoc.
      * intros Hd. apply IH in Hd as (Hm & Hs & done & rest & -> & Hc & Hr).
        cbn [interp session_registry_manager server_stopped stop_calls
             plog with_log] in *.
        split; [done |]. split; [done |]. exists (k :: done), rest.
        split; [done |]. split; [| done]. by rewrite Hc, Hplan.
    + intros [= <- <-]. split; [done |]. split; [done |].
      exists [], (k :: keys). cbn. by rewrite app_nil_r.
Qed.

End Drain.

Lemma registry_keys_NoDup st : NoDup (registry_keys st).
Proof. apply NoDup_fst_map_to_list. Qed.

Lemma elem_of_registry_keys st session_id :
  session_id ∈ registry_keys st
  ↔ is_Some (registry (session_registry_manager st) !! session_id).
Proof.
  unfold registry_keys. rewrite list_elem_of_fmap. split.
  - intros ([k e] & -> & Hin). apply elem_of_map_to_list in Hin. by exists e.
  - intros [e He]. exists (session_id, e). split; [done |].
    by apply elem_of_map_to_list.
Qed.

Lemma planned_elem reg session_id a (keys : list string) :
  session_id ∈ keys →
  addressed reg session_id = Some a →
  (session_id, a) ∈ planned reg keys.
Proof.
  intros Hin Ha. unfold planned. apply list_elem_of_omap.
  exists session_id. split; [done |]. by rewrite Ha.
Qed.

(** C5, as the specification words it, fails twice.  When the machine
    server of [S1] cannot be reached, the stop primitive raises on [S1] and
    is never called for [S2], whose address is set; and an entry whose
    address is the empty string is set but skipped. *)
Lemma stop_once_per_addressed_entry_fails :
  ¬ stop_once_per_addressed_entry stop_S1_unreachable ["S1"; "S2"] two_addressed
  ∧ ¬ stop_once_per_addressed_entry stop_ok ["S1"] empty_address.
Proof.
  split; intros H.
  - specialize (H "S2" (mkSessionEntry (Some "10.0.0.2:9000")) eq_refl).
    vm_compute in H. discriminate H.
  - specialize (H "S1" (mkSessionEntry (Some "")) eq_refl).
    vm_compute in H. discriminate H.
Qed.

(** C5, amended: whatever the order in which the registry yields its keys,
    the shutdown drain calls the stop primitive at most once for every
    session and never for a session without an entry whose address is set
    and non-empty; and when no call of the stop primitive raises (the drain
    ends normally), it is called exactly once, with the entry's address, for
    every entry whose address is set and non-empty. *)
Theorem drain_stops_each_addressed_entry_once {Remote}
    (stop : string → string → Remote → option Exc * Remote)
    (keys : list string) (st : State) (rm : Remote) (session_id : string) :
  keys ≡ₚ registry_keys st →
  let reg := registry (session_registry_manager st) in
  let '(r, p') := serve_shutdown stop keys (mkProcess st rm [] false) in
  (calls_on session_id (stop_calls p') ≤ 1)%nat
  ∧ (addressed reg session_id = None → calls_on session_id (stop_calls p') = 0)
  ∧ (r = None →
     ∀ a, addressed reg session_id = Some a →
          calls_on session_id (stop_calls p') = 1
          ∧ (session_id, a) ∈ stop_calls p').
Proof.
  intros Hperm reg. unfold serve_shutdown.
  destruct (drain stop keys (flag_shutdown (mkProcess st rm [] false)))
    as [r p1] eqn:Hd.
  apply drain_calls in Hd as (_ & _ & done & rest & Hkeys & Hc & Hr).
  cbn in Hc. fold reg in Hc.
  assert (Hnd : NoDup done).
  { pose proof (registry_keys_NoDup st) as Hnd. rewrite <- Hperm, Hkeys in Hnd.
    by apply NoDup_app in Hnd as (? & _ & _). }
  assert (Hcount : calls_on session_id (stop_calls p1)
                   = match addressed reg session_id with
                     | Some _ => if decide (session_id ∈ done) then 1 else 0
                     | None => 0
                     end).
  { rewrite Hc, calls_on_planned. destruct (addressed reg session_id); [| done].
    by apply occurrences_NoDup. }
  assert (Hgoal :
    (calls_on session_id (stop_calls p1) ≤ 1)%nat
    ∧ (addressed reg session_id = None → calls_on session_id (stop_calls p1) = 0)
    ∧ (r = None →
       ∀ a, addressed reg session_id = Some a →
            calls_on session_id (stop_calls p1) = 1
            ∧ (session_id, a) ∈ stop_calls p1)).
  { split; [| split].
    - rewrite Hcount. destruct (addressed reg session_id); [| lia].
      destruct (decide _); lia.
    - intros Hnone. by rewrite Hcount, Hnone.
    - intros -> a Ha. rewrite (Hr eq_refl), app_nil_r in Hkeys. subst done.
      assert (Hin : session_id ∈ keys).
      { rewrite Hperm. apply elem_of_registry_keys. unfold addressed in Ha.
        fold reg. by destruct (reg !! session_id). }
      split.
      + rewrite Hcount, Ha. by rewrite decide_True.
      + rewrite Hc. by apply planned_elem. }
  destruct r as [e |]; exact Hgoal.
Qed.

Lemma drain_stops_each_addressed_entry_once_witness :
  ["S2"; "S1"] ≡ₚ registry_keys (interp two_addressed)
  ∧ let '(r, p') := serve_shutdown stop_ok ["S2"; "S1"]
                      (mkProcess (interp two_addressed) tt [] false) in
    r = None
    ∧ calls_on "S1" (stop_calls p') = 1
    ∧ ("S1", "10.0.0.1:9000") ∈ stop_calls p'.
Proof.
  assert (Hperm : ["S2"; "S1"] ≡ₚ registry_keys (interp two_addressed)).
  { vm_compute. apply perm_swap. }
  split; [exact Hperm |].
  pose proof (drain_stops_each_addressed_entry_once stop_ok ["S2"; "S1"]
                (interp two_addressed) tt "S1" Hperm) as H.
  cbv zeta in H.
  destruct (serve_shutdown stop_ok ["S2"; "S1"]
              (mkProcess (interp two_addressed) tt [] false)) as [r p'] eqn:Hrun.
  assert (Hr : r = None) by (vm_compute in Hrun; congruence).
  split; [exact Hr |].
  exact (proj2 (proj2 H) Hr "10.0.0.1:9000" eq_refl).
Defined.

(** C6, as the specification words it, fails: when the stop primitive
    raises on [S1], the drain does not run to completion and [S2] is never
    contacted. *)
Lemma drain_survives_stop_errors_fails :
  ¬ drain_survives_stop_errors stop_S1_unreachable ["S1"; "S2"] two_addressed.
Proof.
  unfold drain_survives_stop_errors.
  destruct (serve_shutdown stop_S1_unreachable ["S1"; "S2"] two_addressed)
    as [r p'] eqn:Hrun.
  vm_compute in Hrun. intros [Hr _]. congruence.
Qed.

(** C6, amended: the drain has no handler around the stop primitive.  If the
    loop got through the keys [keys1] and the stop primitive raises [e] on
    the next session [k], then [e] leaves [serve]: that call is the last one
    made, no later session is contacted, nothing is logged about the error
    (the log ends with the two lock messages of session [k]), and
    [server.stop] is not reached. *)
Theorem drain_aborts_at_first_stop_error {Remote}
    (stop : string → string → Remote → option Exc * Remote)
    (keys1 keys2 : list string) (k a : string) (st : State) (rm rm' : Remote)
    (p1 : Process Remote) (e : Exc) :
  NoDup (keys1 ++ k :: keys2) →
  drain stop keys1 (flag_shutdown (mkProcess st rm [] false)) = (None, p1) →
  addressed (registry (session_registry_manager st)) k = Some a →
  stop k a (remote p1) = (Some e, rm') →
  let '(r, p') := serve_shutdown stop (keys1 ++ k :: keys2)
                    (mkProcess st rm [] false) in
  r = Some e
  ∧ stop_calls p' = stop_calls p1 ++ [(k, a)]
  ∧ (∀ k', k' ∈ keys2 → calls_on k' (stop_calls p') = 0)
  ∧ server_stopped p' = false
  ∧ LOGGER (interp p')
    = LOGGER (interp p1)
      ++ [debug ("Acquiring lock for session " +:+ k);
          debug ("Lock for session " +:+ k +:+ " acquired")].
Proof.
  intros Hnd Hpre Ha Hstop. unfold serve_shutdown.
  rewrite drain_app, Hpre.
  pose proof (drain_calls _ _ _ _ _ Hpre) as (Hm & Hs & done & rest & Hk & Hc & Hr).
  rewrite (Hr eq_refl), app_nil_r in Hk. subst done.
  cbn [flag_shutdown set_shutting_down plog interp with_manager with_log
       session_registry_manager registry stop_calls server_stopped] in Hm, Hs, Hc.
  unfold addressed in Ha.
  destruct (registry (session_registry_manager st) !! k) as [entry |] eqn:Hlook;
    [| done].
  cbn [mbind option_bind] in Ha.
  cbn [drain plog interp with_log session_registry_manager]. rewrite Hm.
  cbn [registry]. rewrite Hlook, Ha. unfold plog.
  cbn [remote stop_calls server_stopped interp]. rewrite Hstop.
  split; [done |]. split; [done |]. split; [| split; [done |]].
  - intros k' Hin. cbn [stop_calls]. rewrite Hc, app_nil_l, calls_on_app.
    apply NoDup_app in Hnd as (Hnd1 & Hdisj & Hnd2).
    apply NoDup_cons in Hnd2 as (Hk2 & _).
    assert (k' ∉ keys1).
    { intros Hin1. apply (Hdisj _ Hin1). apply elem_of_cons. by right. }
    assert (k ≠ k') by (intros ->; done).
    rewrite calls_on_planned.
    replace (length (filter (λ k0, k0 = k') keys1)) with 0.
    + unfold calls_on. rewrite filter_cons. cbn [fst].
      rewrite decide_False by done. by destruct (addressed _ _).
    + symmetry. rewrite occurrences_NoDup by done. by rewrite decide_False.
  - cbn [interp]. unfold with_log. cbn [LOGGER]. by rewrite <- app_assoc.
Qed.

Lemma drain_aborts_at_first_stop_error_witness :
  NoDup ([] ++ "S1" :: ["S2"])
  ∧ drain stop_S1_unreachable []
      (flag_shutdown (mkProcess (interp two_addressed) tt [] false))
    = (None, flag_shutdown (mkProcess (interp two_addressed) tt [] false))
  ∧ (serve_shutdown stop_S1_unreachable ([] ++ "S1" :: ["S2"])
       (mkProcess (interp two_addressed) tt [] false)).1 = Some rpc_error
  ∧ calls_on "S2"
      (stop_calls (serve_shutdown stop_S1_unreachable ([] ++ "S1" :: ["S2"])
                     (mkProcess (interp two_addressed) tt [] false)).2) = 0.
Proof.
  assert (Hnd : NoDup ([] ++ "S1" :: ["S2"])).
  { cbn. repeat constructor; rewrite ?elem_of_cons, ?elem_of_nil; intuition discriminate. }
  split; [exact Hnd |]. split; [reflexivity |].
  pose proof (drain_aborts_at_first_stop_error stop_S1_unreachable [] ["S2"]
                "S1" "10.0.0.1:9000" (interp two_addressed) tt tt
                (flag_shutdown (mkProcess (interp two_addressed) tt [] false))
                rpc_error Hnd eq_refl eq_refl eq_refl) as H.
  destruct (serve_shutdown stop_S1_unreachable ([] ++ "S1" :: ["S2"])
              (mkProcess (interp two_addressed) tt [] false)) as [r p'].
  destruct H as (Hr & _ & Hlater & _). split; [exact Hr |].
  apply Hlater. apply elem_of_cons. by left.
Defined.

(** * Further properties of the handlers *)

(** X1: The three [_MachineManager] handlers are read-only on everything but
    the log and the call's context: whatever the request and the state
    (shutting down or not), the registry manager and [DEFECTIVE] are as
    before, and the log is only ever extended. *)
Theorem manager_handlers_read_only (st : State) (r1 : NewSessionRequest.t)
    (r2 : SessionRunRequest.t) (r3 : SessionStepRequest.t) :
  let after := [(NewSession r1 st).2; (SessionRun r2 st).2; (SessionStep r3 st).2] in
  Forall (λ st', session_registry_manager st' = session_registry_manager st
                 ∧ DEFECTIVE st' = DEFECTIVE st
                 ∧ LOGGER st `prefix_of` LOGGER st') after.
Proof.
  destruct st as [[reg sd ma] d log ctx].
  destruct sd, d; cbn; repeat constructor;
    cbn; try (by exists []; rewrite app_nil_r); by eexists.
Qed.

(** X2: Called with a fresh context, a [_MachineManager] handler returns no
    message exactly when the server is shutting down, and this is exactly
    when a status code is set (UNAVAILABLE); otherwise New Session answers
    with the placeholder fingerprint and Session Step with the empty
    response, the status code staying unset. *)
Theorem manager_handlers_answer_iff_not_shutting_down (st : State)
    (r1 : NewSessionRequest.t) (r2 : SessionRunRequest.t)
    (r3 : SessionStepRequest.t) :
  let st0 := with_context fresh_context st in
  let sd := shutting_down (session_registry_manager st) in
  (NewSession r1 st0).1
  = Returned (if sd then None else Some placeholder)
  ∧ (SessionStep r3 st0).1
    = Returned (if sd then None else Some SessionStepResponse_default)
  ∧ ((SessionRun r2 st0).1 = Returned None ↔ sd = true)
  ∧ Forall (λ st', code (context st') = if sd then Some UNAVAILABLE else None)
      [(NewSession r1 st0).2; (SessionRun r2 st0).2; (SessionStep r3 st0).2].
Proof.
  destruct st as [[reg sd ma] d log ctx].
  destruct sd, d; cbn; repeat split; try done; repeat constructor.
Qed.

(** X3: The fingerprint New Session returns is the first fingerprint of every
    Session Run result; the second one equals it exactly when the error
    injection is off. *)
Theorem first_fingerprint_is_initial_hash (r1 : NewSessionRequest.t)
    (r2 : SessionRunRequest.t) (st : State) :
  shutting_down (session_registry_manager st) = false →
  ∃ h res,
    (NewSession r1 st).1 = Returned (Some h)
    ∧ (SessionRun r2 (NewSession r1 st).2).1 = Returned (Some res)
    ∧ hashes res !! 0 = Some h
    ∧ (hashes res !! 1 = Some h ↔ DEFECTIVE st = false).
Proof.
  intros Hsd. rewrite NewSession_fixed by done. cbn [fst snd].
  rewrite SessionRun_fixed by done. do 2 eexists.
  split; [reflexivity |]. split; [reflexivity |]. split; [reflexivity |].
  cbn. destruct (DEFECTIVE st); split; (done || discriminate).
Qed.

Lemma first_fingerprint_is_initial_hash_witness :
  shutting_down (session_registry_manager started_defective) = false
  ∧ ∃ h res,
      (NewSession sample_new_session started_defective).1 = Returned (Some h)
      ∧ (SessionRun run_two (NewSession sample_new_session started_defective).2).1
        = Returned (Some res)
      ∧ hashes res !! 0 = Some h
      ∧ (hashes res !! 1 = Some h ↔ DEFECTIVE started_defective = false).
Proof.
  split; [reflexivity |].
  apply (first_fingerprint_is_initial_hash sample_new_session run_two
           started_defective).
  reflexivity.
Defined.

(** ** Which exception gets which status code *)

(** With classified classes that are subclasses of [Exception], being an
    instance of [Exception] decides between a report and propagation. *)
Lemma two_clause_report {T} (classes : list ExcClass)
    (body : Py (option T) unit) e st st1 :
  (∀ c, c ∈ classes → is_Exception c = true) →
  body st = (Raise e, st1) →
  handler [except_ classes invalid_argument_suite; except_Exception unknown_suite]
    body st
  = if is_Exception (exc_class e)
    then (Returned None, report (bool_decide (exc_class e ∈ classes)) e st1)
    else (Propagated e, st1).
Proof.
  intros Hsub Hbody. rewrite (two_clause_outcome classes body e st st1 Hbody).
  destruct (decide (exc_class e ∈ classes)) as [Hin | Hin].
  - rewrite bool_decide_eq_true_2 by done. by rewrite (Hsub _ Hin).
  - rewrite bool_decide_eq_false_2 by done. reflexivity.
Qed.

(** X4: New Session catches an exception raised in its body exactly when it
    is an instance of [Exception].  It then returns [None], appends one
    error record and overwrites whatever detail and code the body had set:
    INVALID_ARGUMENT with [str(e)] exactly for a session-id or an address
    exception, UNKNOWN for every other instance of [Exception], a cycle or
    a rollback exception included.  An exception that is not an instance of
    [Exception] ([KeyboardInterrupt], [SystemExit], [GeneratorExit]) leaves
    the call as it was raised, with nothing logged and the context as the
    body left it.  Either way the registry is as the body left it. *)
Theorem NewSession_exception_report (body : Py (option Hash) unit)
    (e : Exc) (st st1 : State) :
  body st = (Raise e, st1) →
  let classified :=
    bool_decide (exc_class e ∈ [SessionIdException; AddressException]) in
  let out := handler NewSession_except body st in
  out = (if is_Exception (exc_class e)
         then (Returned None, report classified e st1)
         else (Propagated e, st1))
  ∧ session_registry_manager out.2 = session_registry_manager st1
  ∧ (out.1 = Returned None ∧ code (context out.2) = Some INVALID_ARGUMENT
     ↔ exc_class e = SessionIdException ∨ exc_class e = AddressException)
  ∧ (out.1 = Returned None ∧ code (context out.2) = Some UNKNOWN
     ↔ is_Exception (exc_class e) = true
       ∧ exc_class e ≠ SessionIdException ∧ exc_class e ≠ AddressException).
Proof.
  intros Hbody classified out.
  assert (Hout : out = (if is_Exception (exc_class e)
                        then (Returned None, report classified e st1)
                        else (Propagated e, st1))).
  { subst out classified. unfold NewSession_except.
    apply two_clause_report; [listed_classes | done]. }
  split; [exact Hout |]. rewrite Hout. clear Hout out. subst classified.
  destruct (exc_class e); read_table.
Qed.

Lemma NewSession_exception_report_witness :
  validate_cycles (R := option Hash) [200%Z; 100%Z] started
  = (Raise (mkExc CycleException "invalid cycle range"), started)
  ∧ code (context (handler NewSession_except (validate_cycles [200%Z; 100%Z])
                     started).2) = Some UNKNOWN
  ∧ raise (A := unit) (R := option Hash) interrupt started
    = (Raise interrupt, started)
  ∧ handler NewSession_except (raise interrupt) started
    = (Propagated interrupt, started).
Proof.
  split; [reflexivity |].
  pose proof (NewSession_exception_report (validate_cycles [200%Z; 100%Z])
                (mkExc CycleException "invalid cycle range") started started
                eq_refl) as [H _].
  pose proof (NewSession_exception_report (raise interrupt) interrupt started
                started eq_refl) as [H' _].
  cbv zeta in H, H'.
  split; [rewrite H; reflexivity |]. split; [reflexivity | exact H'].
Defined.

(** X5: Session Run and Session Step share one table.  An instance of
    [Exception] raised in the body is caught, the handler returning [None]:
    session-id, address, cycle and rollback exceptions are reported as
    INVALID_ARGUMENT with [str(e)] as the detail message, and exactly the
    remaining instances of [Exception] as UNKNOWN.  An exception that is
    not an instance of [Exception] propagates with nothing logged.  Either
    way the registry is as the body left it. *)
Theorem SessionRun_SessionStep_exception_report
    (run_body : Py (option SessionRunResult) unit)
    (step_body : Py (option SessionStepResponse) unit)
    (e : Exc) (st st1 : State) :
  run_body st = (Raise e, st1) →
  step_body st = (Raise e, st1) →
  let classified :=
    bool_decide (exc_class e ∈ [SessionIdException; AddressException;
                                CycleException; RollbackException]) in
  let run := handler SessionRun_except run_body st in
  let step := handler SessionStep_except step_body st in
  run = (if is_Exception (exc_class e)
         then (Returned None, report classified e st1)
         else (Propagated e, st1))
  ∧ step = (if is_Exception (exc_class e)
            then (Returned None, report classified e st1)
            else (Propagated e, st1))
  ∧ session_registry_manager run.2 = session_registry_manager st1
  ∧ session_registry_manager step.2 = session_registry_manager st1
  ∧ (run.1 = Returned None ∧ code (context run.2) = Some UNKNOWN
     ↔ exc_class e = KeyError ∨ ∃ name, exc_class e = OtherException name)
  ∧ (step.1 = Returned None ∧ code (context step.2) = Some UNKNOWN
     ↔ exc_class e = KeyError ∨ ∃ name, exc_class e = OtherException name).
Proof.
  intros Hrun Hstep classified run step.
  assert (Hr : run = (if is_Exception (exc_class e)
                      then (Returned None, report classified e st1)
                      else (Propagated e, st1))).
  { subst run classified. unfold SessionRun_except.
    apply two_clause_report; [listed_classes | done]. }
  assert (Hs : step = (if is_Exception (exc_class e)
                       then (Returned None, report classified e st1)
                       else (Propagated e, st1))).
  { subst step classified. unfold SessionStep_except.
    apply two_clause_report; [listed_classes | done]. }
  split; [exact Hr |]. split; [exact Hs |]. rewrite Hr, Hs.
  clear Hr Hs run step. subst classified.
  destruct (exc_class e); read_table.
Qed.

Lemma SessionRun_SessionStep_exception_report_witness :
  raise (A := unit) (R := option SessionRunResult) rpc_error started
  = (Raise rpc_error, started)
  ∧ raise (A := unit) (R := option SessionStepResponse) rpc_error started
    = (Raise rpc_error, started)
  ∧ code (context (handler SessionStep_except (raise rpc_error) started).2)
    = Some UNKNOWN
  ∧ handler SessionRun_except (raise system_exit) started
    = (Propagated system_exit, started).
Proof.
  split; [reflexivity |]. split; [reflexivity |].
  pose proof (SessionRun_SessionStep_exception_report (raise rpc_error)
                (raise rpc_error) rpc_error started started eq_refl eq_refl)
    as (_ & H & _).
  pose proof (SessionRun_SessionStep_exception_report (raise system_exit)
                (raise system_exit) system_exit started started eq_refl eq_refl)
    as (H' & _).
  cbv zeta in H, H'.
  split; [rewrite H; reflexivity | exact H'].
Defined.

(** X6: Communicate Address classifies the session-id exception alone: raised
    in the body, it is reported as INVALID_ARGUMENT, every other instance
    of [Exception] as UNKNOWN, the handler returning [None]; an exception
    that is not an instance of [Exception] propagates with nothing logged.
    The registry is as the body left it, and no [except] clause sets
    UNAVAILABLE. *)
Theorem CommunicateAddress_exception_report (body : Py (option Void) unit)
    (e : Exc) (st st1 : State) :
  body st = (Raise e, st1) →
  let classified := bool_decide (exc_class e ∈ [SessionIdException]) in
  let out := handler CommunicateAddress_except body st in
  out = (if is_Exception (exc_class e)
         then (Returned None, report classified e st1)
         else (Propagated e, st1))
  ∧ session_registry_manager out.2 = session_registry_manager st1
  ∧ (out.1 = Returned None ∧ code (context out.2) = Some INVALID_ARGUMENT
     ↔ exc_class e = SessionIdException)
  ∧ (out.1 = Returned None ∧ code (context out.2) = Some UNKNOWN
     ↔ is_Exception (exc_class e) = true ∧ exc_class e ≠ SessionIdException)
  ∧ code (context (report classified e st1)) ≠ Some UNAVAILABLE.
Proof.
  intros Hbody classified out.
  assert (Hout : out = (if is_Exception (exc_class e)
                        then (Returned None, report classified e st1)
                        else (Propagated e, st1))).
  { subst out classified. unfold CommunicateAddress_except.
    apply two_clause_report; [listed_classes | done]. }
  split; [exact Hout |]. rewrite Hout. clear Hout out.
  subst classified.
  destruct (exc_class e); read_table.
Qed.

Lemma CommunicateAddress_exception_report_witness :
  CommunicateAddress_body second_announcement started
  = (Raise (mkExc SessionIdException "No session with id S1"),
     with_log (info ("Received a CommunicateAddress request for session_id S1"
                     +:+ " and address 10.0.0.2:9000")) started)
  ∧ code (context (CommunicateAddress second_announcement started).2)
    = Some INVALID_ARGUMENT.
Proof.
  split; [reflexivity |].
  pose proof (CommunicateAddress_exception_report
                (CommunicateAddress_body second_announcement)
                (mkExc SessionIdException "No session with id S1") started _
                eq_refl) as [H _].
  cbv zeta in H. unfold CommunicateAddress. rewrite H. reflexivity.
Defined.

(** * Further properties of the shutdown path *)

Section DrainFacts.

Context {Remote : Type}.
Variable stop : string → string → Remote → option Exc * Remote.

Implicit Types (p : Process Remote) (keys : list string).

(** The loop touches nothing of the interpreter state but the log. *)
Lemma drain_interp keys p r p' :
  drain stop keys p = (r, p') →
  DEFECTIVE (interp p') = DEFECTIVE (interp p)
  ∧ context (interp p') = context (interp p)
  ∧ LOGGER (interp p) `prefix_of` LOGGER (interp p').
Proof.
  revert p. induction keys as [| k keys IH]; intros p; cbn [drain].
  - intros [= <- <-]. by repeat split.
  - destruct (registry _ !! k) as [entry |].
    + destruct (truthy_address entry) as [a |].
      * destruct (stop k a _) as [[e |] rm].
        -- intros [= <- <-]. repeat split. cbn. rewrite <- app_assoc.
           by eexists.
        -- intros Hd. apply IH in Hd as (Hd & Hc & Hl). cbn in Hd, Hc, Hl.
           repeat split; [done | done |]. etrans; [| exact Hl].
           rewrite <- app_assoc. by eexists.
      * intros Hd. apply IH in Hd as (Hd & Hc & Hl). cbn in Hd, Hc, Hl.
        repeat split; [done | done |]. etrans; [| exact Hl].
        rewrite <- app_assoc. by eexists.
    + intros [= <- <-]. repeat split. cbn. by eexists.
Qed.

(** An exception that leaves a loop over keys of the registry was raised
    by the stop primitive, on a session with a truthy address. *)
Lemma drain_error_source keys p e p' :
  (∀ k, k ∈ keys →
        is_Some (registry (session_registry_manager (interp p)) !! k)) →
  drain stop keys p = (Some e, p') →
  ∃ k a rm0 rm1,
    k ∈ keys
    ∧ addressed (registry (session_registry_manager (interp p))) k = Some a
    ∧ stop k a rm0 = (Some e, rm1).
Proof.
  revert p p'. induction keys as [| k keys IH]; intros p p' Hdom; cbn [drain];
    [done |].
  cbn [plog interp with_log session_registry_manager].
  destruct (Hdom k) as [entry Hk]; [apply elem_of_cons; by left |].
  rewrite Hk.
  assert (Hrest : ∀ p0,
             session_registry_manager (interp p0)
             = session_registry_manager (interp p) →
             drain stop keys p0 = (Some e, p') →
             ∃ k0 a rm0 rm1,
               k0 ∈ k :: keys
               ∧ addressed (registry (session_registry_manager (interp p))) k0
                 = Some a
               ∧ stop k0 a rm0 = (Some e, rm1)).
  { intros p0 Hm Hd. apply IH in Hd as (k0 & a & rm0 & rm1 & Hin & Ha & Hs).
    - exists k0, a, rm0, rm1. rewrite <- Hm. repeat split; [| done | done].
      apply elem_of_cons. by right.
    - intros k0 Hin. rewrite Hm. apply Hdom, elem_of_cons. by right. }
  destruct (truthy_address entry) as [a |] eqn:Ha.
  - destruct (stop k a _) as [[e0 |] rm] eqn:Hs.
    + intros [= -> <-]. exists k, a. do 2 eexists. split; [| split; [| exact Hs]].
      * apply elem_of_cons. by left.
      * unfold addressed. rewrite Hk. exact Ha.
    + apply Hrest. reflexivity.
  - apply Hrest. reflexivity.
Qed.

(** Over sessions without a truthy address the loop ends normally without
    a single call, whatever the stop primitive would do. *)
Lemma drain_quiet keys p :
  (∀ k, k ∈ keys →
        ∃ entry, registry (session_registry_manager (interp p)) !! k = Some entry
                 ∧ truthy_address entry = None) →
  ∃ p', drain stop keys p = (None, p')
        ∧ stop_calls p' = stop_calls p
        ∧ remote p' = remote p
        ∧ server_stopped p' = server_stopped p
        ∧ session_registry_manager (interp p') = session_registry_manager (interp p).
Proof.
  revert p. induction keys as [| k keys IH]; intros p Hq; cbn [drain].
  - by eexists.
  - cbn [plog interp with_log session_registry_manager].
    destruct (Hq k) as (entry & Hk & Ha); [apply elem_of_cons; by left |].
    rewrite Hk, Ha.
    match goal with
    | |- ∃ p', drain stop keys ?q = _ ∧ _ =>
        destruct (IH q) as (p' & Hd & H1 & H2 & H3 & H4)
    end.
    { intros k0 Hin. cbn. apply Hq, elem_of_cons. by right. }
    exists p'. cbn in H1, H2, H3, H4. by repeat split.
Qed.

(** What the shutdown suite leaves behind. *)
Lemma serve_shutdown_facts keys st rm r p' :
  serve_shutdown stop keys (mkProcess st rm [] false) = (r, p') →
  session_registry_manager (interp p')
  = mkManager (registry (session_registry_manager st)) true
      (manager_address (session_registry_manager st))
  ∧ DEFECTIVE (interp p') = DEFECTIVE st
  ∧ server_stopped p' = match r with Some _ => false | None => true end
  ∧ ∃ done rest,
      keys = done ++ rest
      ∧ stop_calls p' = planned (registry (session_registry_manager st)) done
      ∧ (r = None → rest = []).
Proof.
  unfold serve_shutdown.
  destruct (drain stop keys (flag_shutdown (mkProcess st rm [] false)))
    as [r1 p1] eqn:Hd.
  pose proof (drain_calls _ _ _ _ _ Hd) as (Hm & Hs & done & rest & Hk & Hc & Hr).
  pose proof (drain_interp _ _ _ _ Hd) as (Hdef & _ & _).
  cbn in Hm, Hs, Hc, Hdef.
  destruct r1 as [e |]; intros [= <- <-]; cbn;
    (split; [done |]); (split; [done |]); (split; [done |]);
    exists done, rest; by repeat split.
Qed.

End DrainFacts.

(** X8: Whatever happens in the drain, the shutdown suite has set the flag
    first: afterwards [shutting_down] is true, the registry's entries and
    [DEFECTIVE] are as before, and every [_MachineManager] handler answers a
    new call with UNAVAILABLE and no message. *)
Theorem shutdown_then_fail_fast {Remote}
    (stop : string → string → Remote → option Exc * Remote)
    (keys : list string) (st : State) (rm : Remote)
    (r1 : NewSessionRequest.t) (r2 : SessionRunRequest.t)
    (r3 : SessionStepRequest.t) :
  let st' := with_context fresh_context
               (interp (serve_shutdown stop keys (mkProcess st rm [] false)).2) in
  shutting_down (session_registry_manager st') = true
  ∧ registry (session_registry_manager st') = registry (session_registry_manager st)
  ∧ DEFECTIVE st' = DEFECTIVE st
  ∧ (NewSession r1 st').1 = Returned None
  ∧ (SessionRun r2 st').1 = Returned None
  ∧ (SessionStep r3 st').1 = Returned None
  ∧ Forall (λ s, code (context s) = Some UNAVAILABLE)
      [(NewSession r1 st').2; (SessionRun r2 st').2; (SessionStep r3 st').2].
Proof.
  destruct (serve_shutdown stop keys (mkProcess st rm [] false)) as [r p'] eqn:Hrun.
  apply serve_shutdown_facts in Hrun as (Hm & Hd & _ & _). cbn [snd].
  destruct (interp p') as [m d log ctx]. cbn in Hm, Hd. subst m d. cbn.
  repeat split; repeat constructor.
Qed.

(** X9: The stop primitive is called in the order in which the keys are
    yielded, once per occurrence of a key whose entry has a truthy address
    and with that address: when the loop ends normally the calls made are
    exactly those planned for the keys.  [server.stop] is reached exactly
    when no exception left the loop. *)
Theorem shutdown_calls_in_key_order {Remote}
    (stop : string → string → Remote → option Exc * Remote)
    (keys : list string) (st : State) (rm : Remote) :
  let '(r, p') := serve_shutdown stop keys (mkProcess st rm [] false) in
  (r = None →
   stop_calls p' = planned (registry (session_registry_manager st)) keys)
  ∧ (server_stopped p' = true ↔ r = None).
Proof.
  destruct (serve_shutdown stop keys (mkProcess st rm [] false)) as [r p'] eqn:Hrun.
  apply serve_shutdown_facts in Hrun as (_ & _ & Hs & done & rest & Hk & Hc & Hr).
  split.
  - intros Hnone. rewrite (Hr Hnone), app_nil_r in Hk. by subst done.
  - rewrite Hs. by destruct r.
Qed.

(** X10: When the keys drained are keys of the registry, the loop itself never
    raises: an exception that leaves [serve] during shutdown was raised by
    the stop primitive, called for a session with a truthy address. *)
Theorem shutdown_raises_only_stop_errors {Remote}
    (stop : string → string → Remote → option Exc * Remote)
    (keys : list string) (st : State) (rm : Remote) (e : Exc) :
  keys ≡ₚ registry_keys st →
  (serve_shutdown stop keys (mkProcess st rm [] false)).1 = Some e →
  ∃ k a rm0 rm1,
    k ∈ keys
    ∧ addressed (registry (session_registry_manager st)) k = Some a
    ∧ stop k a rm0 = (Some e, rm1).
Proof.
  intros Hperm. unfold serve_shutdown.
  destruct (drain stop keys (flag_shutdown (mkProcess st rm [] false)))
    as [[e1 |] p1] eqn:Hd; cbn [fst]; [| done].
  intros [= ->]. eapply drain_error_source in Hd; [exact Hd |].
  intros k Hin. cbn. apply elem_of_registry_keys. by rewrite <- Hperm.
Qed.

Lemma shutdown_raises_only_stop_errors_witness :
  ["S2"; "S1"] ≡ₚ registry_keys (interp two_addressed)
  ∧ (serve_shutdown stop_S1_unreachable ["S2"; "S1"]
       (mkProcess (interp two_addressed) tt [] false)).1 = Some rpc_error
  ∧ ∃ k a rm0 rm1,
      k ∈ ["S2"; "S1"]
      ∧ addressed (registry (session_registry_manager (interp two_addressed))) k
        = Some a
      ∧ stop_S1_unreachable k a rm0 = (Some rpc_error, rm1).
Proof.
  assert (Hperm : ["S2"; "S1"] ≡ₚ registry_keys (interp two_addressed)).
  { vm_compute. apply perm_swap. }
  split; [exact Hperm |]. split; [reflexivity |].
  exact (shutdown_raises_only_stop_errors stop_S1_unreachable ["S2"; "S1"]
           (interp two_addressed) tt rpc_error Hperm eq_refl).
Defined.

(** X11: When no entry has a truthy address (no session ever announced one),
    the shutdown makes no remote call at all, whatever the stop primitive
    would do: the drain ends normally, the remote world is untouched and
    [server.stop] is reached. *)
Theorem shutdown_without_addresses {Remote}
    (stop : string → string → Remote → option Exc * Remote)
    (keys : list string) (st : State) (rm : Remote) :
  keys ≡ₚ registry_keys st →
  (∀ k entry, registry (session_registry_manager st) !! k = Some entry →
              truthy_address entry = None) →
  let '(r, p') := serve_shutdown stop keys (mkProcess st rm [] false) in
  r = None ∧ stop_calls p' = [] ∧ remote p' = rm ∧ server_stopped p' = true.
Proof.
  intros Hperm Hquiet. unfold serve_shutdown.
  destruct (drain_quiet stop keys (flag_shutdown (mkProcess st rm [] false)))
    as (p1 & Hd & Hc & Hrm & _ & _).
  { intros k Hin. cbn. rewrite Hperm in Hin.
    apply elem_of_registry_keys in Hin as [entry Hk]. exists entry.
    split; [done |]. by eapply Hquiet. }
  rewrite Hd. cbn in Hc, Hrm. cbn. by rewrite Hc, Hrm.
Qed.

Lemma shutdown_without_addresses_witness :
  ["S1"] ≡ₚ registry_keys (interp unannounced)
  ∧ (∀ k entry,
       registry (session_registry_manager (interp unannounced)) !! k = Some entry →
       truthy_address entry = None)
  ∧ let '(r, p') := serve_shutdown stop_S1_unreachable ["S1"]
                      (mkProcess (interp unannounced) tt [] false) in
    r = None ∧ stop_calls p' = [] ∧ remote p' = tt ∧ server_stopped p' = true.
Proof.
  assert (Hperm : ["S1"] ≡ₚ registry_keys (interp unannounced)).
  { vm_compute. reflexivity. }
  assert (Hquiet : ∀ k entry,
             registry (session_registry_manager (interp unannounced)) !! k
             = Some entry →
             truthy_address entry = None).
  { intros k entry Hk. destruct (decide (k = "S1")) as [-> | Hne].
    - vm_compute in Hk. by injection Hk as <-.
    - cbn in Hk. rewrite lookup_insert_ne in Hk by done.
      by rewrite lookup_empty in Hk. }
  split; [exact Hperm |]. split; [exact Hquiet |].
  exact (shutdown_without_addresses stop_S1_unreachable ["S1"]
           (interp unannounced) tt Hperm Hquiet).
Defined.

(** * Announcing an address, and the mock as a whole *)

Lemma CommunicateAddress_unknown request st :
  registry (session_registry_manager st) !! AddressRequest.session_id request = None →
  ∃ st', CommunicateAddress request st = (Returned None, st')
         ∧ session_registry_manager st' = session_registry_manager st
         ∧ DEFECTIVE st' = DEFECTIVE st
         ∧ code (context st') = Some INVALID_ARGUMENT.
Proof.
  destruct st as [[reg sd ma] d log ctx], request as [addr sid]. cbn.
  intros Hk. unfold CommunicateAddress, handler, call, try_except,
    CommunicateAddress_body, py_bind, LOGGER_info, modify,
    register_address_for_session.
  cbn. rewrite Hk. cbn. by eexists.
Qed.

Lemma CommunicateAddress_fresh request st :
  registry (session_registry_manager st) !! AddressRequest.session_id request
  = Some (mkSessionEntry None) →
  CommunicateAddress request st
  = (Returned (Some Void_default),
     with_manager
       (mkManager
          (<[AddressRequest.session_id request :=
               mkSessionEntry (Some (AddressRequest.address request))]>
             (registry (session_registry_manager st)))
          (shutting_down (session_registry_manager st))
          (manager_address (session_registry_manager st)))
       (with_log
          (info ("Received a CommunicateAddress request for session_id "
                 +:+ AddressRequest.session_id request +:+ " and address "
                 +:+ AddressRequest.address request)) st)).
Proof.
  destruct st as [[reg sd ma] d log ctx], request as [addr sid]. cbn.
  intros Hk. unfold CommunicateAddress, handler, call, try_except,
    CommunicateAddress_body, py_bind, LOGGER_info, modify,
    register_address_for_session.
  cbn. rewrite Hk. reflexivity.
Qed.

Lemma CommunicateAddress_taken request st a :
  registry (session_registry_manager st) !! AddressRequest.session_id request
  = Some (mkSessionEntry (Some a)) →
  ∃ st', CommunicateAddress request st = (Returned None, st')
         ∧ session_registry_manager st' = session_registry_manager st
         ∧ DEFECTIVE st' = DEFECTIVE st
         ∧ code (context st') = Some UNKNOWN.
Proof.
  destruct st as [[reg sd ma] d log ctx], request as [addr sid]. cbn.
  intros Hk. unfold CommunicateAddress, handler, call, try_except,
    CommunicateAddress_body, py_bind, LOGGER_info, modify,
    register_address_for_session.
  cbn. rewrite Hk. cbn. by eexists.
Qed.

(** X7: Communicate Address never consults the shutdown flag and never changes
    it.  Announcing an address for an entry without one stores it and
    answers [Void] with the context untouched; for an unknown session the
    call is rejected as INVALID_ARGUMENT, and for a session that already
    has an address as UNKNOWN, the registry staying as it was (the first
    address is retained).  The registry operation is the one modelled from
    the specification. *)
Theorem CommunicateAddress_outcomes (request : AddressRequest.t) (st : State) :
  let sid := AddressRequest.session_id request in
  let m := session_registry_manager st in
  let '(r, st') := CommunicateAddress request st in
  shutting_down (session_registry_manager st') = shutting_down m
  ∧ DEFECTIVE st' = DEFECTIVE st
  ∧ match registry m !! sid with
    | None =>
        r = Returned None
        ∧ registry (session_registry_manager st') = registry m
        ∧ code (context st') = Some INVALID_ARGUMENT
    | Some (mkSessionEntry None) =>
        r = Returned (Some Void_default)
        ∧ registry (session_registry_manager st')
          = <[sid := mkSessionEntry (Some (AddressRequest.address request))]>
              (registry m)
        ∧ context st' = context st
    | Some (mkSessionEntry (Some a)) =>
        r = Returned None
        ∧ registry (session_registry_manager st') = registry m
        ∧ code (context st') = Some UNKNOWN
    end.
Proof.
  intros sid m.
  destruct (registry m !! sid) as [[[a |]] |] eqn:Hk.
  - destruct (CommunicateAddress_taken request st a Hk) as (st' & -> & Hm & Hd & Hc).
    by rewrite Hm.
  - by rewrite (CommunicateAddress_fresh request st Hk).
  - destruct (CommunicateAddress_unknown request st Hk) as (st' & -> & Hm & Hd & Hc).
    by rewrite Hm.
Qed.

(** X12: From announcement to shutdown: after an address was announced for an
    entry without one, a shutdown drain that ends normally calls the stop
    primitive for that session exactly once and with the announced
    address; unless the announced address was the empty string, which is
    stored but never contacted. *)
Theorem announced_address_is_stopped {Remote}
    (stop : string → string → Remote → option Exc * Remote)
    (request : AddressRequest.t) (st : State) (rm : Remote)
    (keys : list string) :
  let sid := AddressRequest.session_id request in
  let addr := AddressRequest.address request in
  let st' := (CommunicateAddress request st).2 in
  registry (session_registry_manager st) !! sid = Some (mkSessionEntry None) →
  keys ≡ₚ registry_keys st' →
  (serve_shutdown stop keys (mkProcess st' rm [] false)).1 = None →
  let calls := stop_calls (serve_shutdown stop keys (mkProcess st' rm [] false)).2 in
  if bool_decide (addr = "")
  then calls_on sid calls = 0
  else calls_on sid calls = 1 ∧ (sid, addr) ∈ calls.
Proof.
  intros sid addr st' Hk Hperm Hnone calls. subst calls.
  destruct (serve_shutdown stop keys (mkProcess st' rm [] false)) as [r p'] eqn:Hrun.
  cbn [fst snd] in *. subst r.
  apply serve_shutdown_facts in Hrun as (_ & _ & _ & done & rest & Hkeys & Hc & Hr).
  rewrite (Hr eq_refl), app_nil_r in Hkeys. subst done. rewrite Hc.
  assert (Hreg : registry (session_registry_manager st')
                 = <[sid := mkSessionEntry (Some addr)]>
                     (registry (session_registry_manager st))).
  { subst st'. by rewrite (CommunicateAddress_fresh request st Hk). }
  assert (Haddr : addressed (registry (session_registry_manager st')) sid
                  = if bool_decide (addr = "") then None else Some addr).
  { unfold addressed. rewrite Hreg, lookup_insert_eq. reflexivity. }
  assert (Hin : sid ∈ keys).
  { rewrite Hperm. apply elem_of_registry_keys. rewrite Hreg, lookup_insert_eq.
    by eexists. }
  rewrite calls_on_planned, Haddr.
  destruct (bool_decide (addr = "")); [done |]. split.
  - rewrite occurrences_NoDup; [by rewrite decide_True |].
    rewrite Hperm. apply registry_keys_NoDup.
  - apply planned_elem; [done |]. rewrite Haddr. done.
Qed.

Lemma announced_address_is_stopped_witness :
  registry (session_registry_manager created_S1) !! "S1" = Some (mkSessionEntry None)
  ∧ ["S1"] ≡ₚ registry_keys (CommunicateAddress first_announcement created_S1).2
  ∧ (serve_shutdown stop_ok ["S1"]
       (mkProcess (CommunicateAddress first_announcement created_S1).2 tt [] false)).1
    = None
  ∧ ("S1", "10.0.0.1:9000")
    ∈ stop_calls
        (serve_shutdown stop_ok ["S1"]
           (mkProcess (CommunicateAddress first_announcement created_S1).2 tt []
              false)).2.
Proof.
  assert (Hperm : ["S1"]
                  ≡ₚ registry_keys (CommunicateAddress first_announcement created_S1).2).
  { vm_compute. reflexivity. }
  split; [reflexivity |]. split; [exact Hperm |]. split; [reflexivity |].
  exact (proj2 (announced_address_is_stopped stop_ok first_announcement created_S1
                  tt ["S1"] eq_refl Hperm eq_refl)).
Defined.

Lemma manager_handlers_keep (st : State) (r1 : NewSessionRequest.t)
    (r2 : SessionRunRequest.t) (r3 : SessionStepRequest.t) :
  (session_registry_manager (NewSession r1 st).2 = session_registry_manager st
   ∧ DEFECTIVE (NewSession r1 st).2 = DEFECTIVE st)
  ∧ (session_registry_manager (SessionRun r2 st).2 = session_registry_manager st
     ∧ DEFECTIVE (SessionRun r2 st).2 = DEFECTIVE st)
  ∧ (session_registry_manager (SessionStep r3 st).2 = session_registry_manager st
     ∧ DEFECTIVE (SessionStep r3 st).2 = DEFECTIVE st).
Proof.
  destruct st as [[reg sd ma] d log ctx]. by destruct sd, d.
Qed.

(** Serving a request on an empty registry leaves it empty, and no request
    changes the flag or [DEFECTIVE]. *)
Lemma serve_request_keeps_empty (req : Request) (st : State) :
  registry (session_registry_manager st) = ∅ →
  registry (session_registry_manager (serve_request req st)) = ∅
  ∧ shutting_down (session_registry_manager (serve_request req st))
    = shutting_down (session_registry_manager st)
  ∧ DEFECTIVE (serve_request req st) = DEFECTIVE st.
Proof.
  intros Hempty. unfold serve_request.
  pose proof (manager_handlers_keep (with_context fresh_context st)) as Hkeep.
  destruct req as [r | r | r | r].
  - destruct (Hkeep r (SessionRunRequest.mk "" []) (SessionStepRequest.mk "" 0))
      as ((-> & ->) & _). by cbn.
  - destruct (Hkeep (NewSessionRequest.mk "" (MachineRequest_opaque [])) r
                (SessionStepRequest.mk "" 0)) as (_ & (-> & ->) & _). by cbn.
  - destruct (Hkeep (NewSessionRequest.mk "" (MachineRequest_opaque []))
                (SessionRunRequest.mk "" []) r) as (_ & _ & (-> & ->)). by cbn.
  - destruct (CommunicateAddress_unknown r (with_context fresh_context st))
      as (st' & -> & Hm & Hd & _).
    + cbn. rewrite Hempty. apply lookup_empty.
    + cbn [snd]. rewrite Hm, Hd. by cbn.
Qed.

(** X13: The mock as a whole never contacts a machine server.  No handler
    creates a registry entry, so whatever the command line and whatever
    requests are served after [serve] has started the server, the registry
    is still empty and the server is still accepting; every announcement
    was rejected; and the shutdown that follows makes no call of the stop
    primitive, ends normally and reaches [server.stop].  (The registry
    starts empty, as the specification says of its constructor.) *)
Theorem mock_never_contacts_a_machine {Remote}
    (stop : string → string → Remote → option Exc * Remote)
    (argv : list CliOption) (reqs : list Request) (rm : Remote) :
  let st := serve_requests reqs (serve_start (parse_args argv)) in
  registry (session_registry_manager st) = ∅
  ∧ shutting_down (session_registry_manager st) = false
  ∧ DEFECTIVE st = bool_decide (OptDefective ∈ argv)
  ∧ let '(r, p') := serve_shutdown stop (registry_keys st)
                      (mkProcess st rm [] false) in
    r = None ∧ stop_calls p' = [] ∧ remote p' = rm ∧ server_stopped p' = true.
Proof.
  intros st.
  assert (Hinv : ∀ reqs st0,
             registry (session_registry_manager st0) = ∅ →
             registry (session_registry_manager (serve_requests reqs st0)) = ∅
             ∧ shutting_down (session_registry_manager (serve_requests reqs st0))
               = shutting_down (session_registry_manager st0)
             ∧ DEFECTIVE (serve_requests reqs st0) = DEFECTIVE st0).
  { clear. induction reqs as [| req reqs IH]; intros st0 H0; [done |].
    unfold serve_requests in *. cbn [fold_left].
    destruct (serve_request_keeps_empty req st0 H0) as (He & Hs & Hd).
    destruct (IH _ He) as (He' & Hs' & Hd').
    by rewrite He', Hs', Hd', Hs, Hd. }
  destruct (Hinv reqs (serve_start (parse_args argv)) eq_refl) as (He & Hs & Hd).
  fold st in He, Hs, Hd.
  split; [done |]. split; [by rewrite Hs |].
  split; [by rewrite Hd, serve_start_DEFECTIVE |].
  unfold registry_keys. rewrite He, map_to_list_empty. by cbn.
Qed.
